(** * HLP Broadcaster Suite: the dashboard and the video overlay

    A shallow embedding of the two React components of [App.tsx]
    ([Dashboard] and [VideoOverlay]) and of the platform they talk to
    (the [EventSource], the media elements, the timers and the wall
    clock), followed by the properties the specification states about
    them.

    The repository holds two revisions of [App.tsx].  The embedding
    follows the fuller one, with the toast and the legal pages.  The other
    has the same [Dashboard] without the toast, and a [playVideo] that
    makes an element when [videoRef] is empty, which it never is once the
    component is mounted.

    Conventions.
    - A component is a record of its [useState] cells and [useRef] boxes,
      together with what the platform holds for it: the live
      [EventSource] with the values its listeners closed over, the
      pending [play()] promises, the pending [setTimeout] callbacks and
      the log of platform calls.
    - A handler is a computation in the monad [JS], state passing with
      JavaScript's completions: a [throw] keeps the writes made before it.
    - [Date.now()] and [new Date()] read the wall clock, a function from
      the number of the read to milliseconds; [setTimeout] runs on the
      event loop's own time.
    - Numbers that are counts are [nat], clock values are [Z], the volume
      (a number between 0 and 1) is a rational.
    - A value of a message is what [JSON.parse] returns.  Its conversion
      to a string in a template literal can throw ([interpolate]), and so
      can its render as a React child ([renders]).
    - A state change of a discrete event and the effects of the render it
      causes are one step: React flushes them before the next event. *)

From Stdlib Require Import ZArith List String Ascii Bool Lia QArith.
From Stdlib Require Import DecimalString DecimalPos DecimalZ.
Import ListNotations.
Local Open Scope string_scope.
Local Open Scope Z_scope.

Set Warnings "-register-all".

(** ** JavaScript values and completions *)

(** What [JSON.parse] returns.  A number is kept by what the two
    components can observe of it: the string its conversion gives (["7"],
    ["0.5"], ["1e+21"]) and whether it is zero. *)
Inductive JSON : Type :=
| JNull
| JBool (b : bool)
| JNum (printed : string) (zero : bool)
| JStr (s : string)
| JArr (l : list JSON)
| JObj (fields : list (string * JSON)).

(** A value read from a property is a JSON value or [undefined] ([None]). *)
Definition JSValue : Type := option JSON.

Inductive JSError : Type := SyntaxError | TypeError.

(** [n.toString()] for an integer. *)
Definition Z_toString (n : Z) : string := NilZero.string_of_int (Z.to_int n).

(** [Array.prototype.join(",")] over the printed elements. *)
Fixpoint join (l : list string) : string :=
  match l with
  | [] => ""
  | [x] => x
  | x :: r => x ++ "," ++ join r
  end.

(** The value of the property [k] of an object with the properties
    [fields], each key once as [JSON.parse] leaves them. *)
Fixpoint own_property (k : string) (fields : list (string * JSON)) : JSValue :=
  match fields with
  | [] => None
  | (k', v) :: r => if (k =? k')%string then Some v else own_property k r
  end.

(** The string conversion of a JSON value, [None] where it throws a
    [TypeError].  An object is converted by its [toString] method, then by
    its [valueOf].  The inherited [toString] gives ["[object Object]"].  An
    own property [toString] hides it and is no function in what
    [JSON.parse] returns; [valueOf], own or inherited, then gives no
    primitive either, and the conversion throws.  An array is converted by
    [join], which converts each of its elements, [null] to the empty
    string. *)
Fixpoint JSON_toString (v : JSON) : option string :=
  match v with
  | JNull => Some "null"
  | JBool true => Some "true"
  | JBool false => Some "false"
  | JNum printed _ => Some printed
  | JStr s => Some s
  | JArr l =>
      option_map join
        ((fix elements (l : list JSON) : option (list string) :=
            match l with
            | [] => Some []
            | x :: r =>
                match
                  match x with JNull => Some "" | _ => JSON_toString x end,
                  elements r
                with
                | Some a, Some b => Some (a :: b)
                | _, _ => None
                end
            end) l)
  | JObj fields =>
      match own_property "toString" fields with
      | Some _ => None
      | None => Some "[object Object]"
      end
  end.

(** The conversion of a value read from a property: [undefined] prints as
    ["undefined"]. *)
Definition to_string (v : JSValue) : option string :=
  match v with
  | None => Some "undefined"
  | Some j => JSON_toString j
  end.

(** Whether the conversion succeeds, and the string it gives when it
    does. *)
Definition converts (v : JSValue) : bool :=
  match to_string v with
  | Some _ => true
  | None => false
  end.

Definition ToString (v : JSValue) : string :=
  match to_string v with
  | Some s => s
  | None => ""
  end.

(** Truthiness, as [&&] and [if] test it. *)
Definition truthy (v : JSValue) : bool :=
  match v with
  | None => false
  | Some JNull => false
  | Some (JBool b) => b
  | Some (JNum _ zero) => negb zero
  | Some (JStr s) => negb (s =? "")%string
  | Some (JArr _) => true
  | Some (JObj _) => true
  end.

Inductive Completion (A : Type) : Type :=
| Normal (a : A)
| Throw (e : JSError).
Arguments Normal {A} a.
Arguments Throw {A} e.

(** A computation over a component state [St]. *)
Definition JS (St A : Type) : Type := St -> Completion A * St.

Definition ret {St A} (a : A) : JS St A := fun s => (Normal a, s).

Definition bind {St A B} (c : JS St A) (k : A -> JS St B) : JS St B :=
  fun s =>
    match c s with
    | (Normal a, s') => k a s'
    | (Throw e, s') => (Throw e, s')
    end.

Definition throw {St A} (e : JSError) : JS St A := fun s => (Throw e, s).

(** [try { body } catch { handler }] *)
Definition try_catch {St A} (body : JS St A) (handler : JSError -> JS St A)
  : JS St A :=
  fun s =>
    match body s with
    | (Normal a, s') => (Normal a, s')
    | (Throw e, s') => handler e s'
    end.

(** A state write: [setX(f)] or an assignment. *)
Definition modify {St} (f : St -> St) : JS St unit := fun s => (Normal tt, f s).

Definition gets {St A} (f : St -> A) : JS St A := fun s => (Normal (f s), s).

Definition when {St} (b : bool) (c : JS St unit) : JS St unit :=
  if b then c else ret tt.

Definition exec {St A} (c : JS St A) (s : St) : St := snd (c s).

Definition completion {St A} (c : JS St A) (s : St) : Completion A := fst (c s).

Declare Scope js_scope.
Delimit Scope js_scope with js.
Notation "x <- c ;; k" := (bind c (fun x => k))
  (at level 61, c at next level, right associativity) : js_scope.
Notation "c ;; k" := (bind c (fun _ => k))
  (at level 61, right associativity) : js_scope.

(** [`${v}`] in a template literal: the string conversion of [v], which
    throws where [v] does not convert. *)
Definition interpolate {St} (v : JSValue) : JS St string :=
  if converts v then ret (ToString v) else throw TypeError.

(** A message's [data] is modelled by what [JSON.parse] makes of it:
    [None] when it throws a [SyntaxError]. *)
Definition MessageData : Type := option JSON.

Definition JSON_parse {St} (data : MessageData) : JS St JSON :=
  match data with
  | None => throw SyntaxError
  | Some v => ret v
  end.

(** [payload.k] on a value that is not [null]: [undefined] where the value
    has no such property. *)
Definition get (payload : JSON) (k : string) : JSValue :=
  match payload with
  | JObj fields => own_property k fields
  | _ => None
  end.

(** [payload.k]: a [TypeError] on [null]. *)
Definition prop {St} (payload : JSON) (k : string) : JS St JSValue :=
  match payload with
  | JNull => throw TypeError
  | _ => ret (get payload k)
  end.

(** [s.padStart(n, fill)] *)
Fixpoint fill_chars (k : nat) (cur fill : string) : string :=
  match k with
  | O => ""
  | S k' =>
      match cur with
      | String c r => String c (fill_chars k' r fill)
      | EmptyString =>
          match fill with
          | String c r => String c (fill_chars k' r fill)
          | EmptyString => ""
          end
      end
  end.

Definition padStart (n : nat) (fill s : string) : string :=
  fill_chars (n - String.length s) fill fill ++ s.

(** The timers, as the list of their deadlines: those that have come due
    at time [t] and those still pending. *)
Definition due (t : Z) (deadlines : list Z) : list Z :=
  filter (fun d => d <=? t) deadlines.

Definition pending (t : Z) (deadlines : list Z) : list Z :=
  filter (fun d => negb (d <=? t)) deadlines.

(** Elapsed time as the specification words it: hours, minutes and
    seconds of the elapsed whole seconds, each padded with a zero to two
    digits, with colons between. *)
Definition zero_padded (n : Z) : string :=
  if n <? 10 then "0" ++ Z_toString n else Z_toString n.

Definition hh_mm_ss (elapsed_ms : Z) : string :=
  let secs := elapsed_ms / 1000 in
  zero_padded (secs / 3600) ++ ":" ++ zero_padded (secs / 60 mod 60) ++ ":"
  ++ zero_padded (secs mod 60).

(** The toast both components show. *)
Record Toast : Type := { username : JSValue; rewardName : JSValue }.

(** A cue qualifies for a toast when [username] and [rewardName] are both
    truthy. *)
Definition qualifying (payload : JSON) : bool :=
  truthy (get payload "username") && truthy (get payload "rewardName").

Definition toast_of (payload : JSON) : option Toast :=
  Some {| username := get payload "username";
          rewardName := get payload "rewardName" |}.

(** Whether React renders a value as a child: a string or a number as
    text, [null], [undefined] and a boolean as nothing, an array by its
    elements.  An object is no child: the render throws, and with no error
    boundary around it React takes the whole application off the screen. *)
Fixpoint JSON_renders (v : JSON) : bool :=
  match v with
  | JArr l => forallb JSON_renders l
  | JObj _ => false
  | _ => true
  end.

Definition renders_child (v : JSValue) : bool :=
  match v with
  | None => true
  | Some j => JSON_renders j
  end.

(** [{toast && (... {toast.username} ... {toast.rewardName} ...)}], the
    only place where either component renders a value of a message. *)
Definition toast_renders (t : option Toast) : bool :=
  match t with
  | Some t => renders_child (username t) && renders_child (rewardName t)
  | None => true
  end.

(** The schema of a [play-sound] payload: [src] and [filename] strings,
    [username] and [rewardName] strings when present. *)
Definition is_string (v : JSValue) : bool :=
  match v with Some (JStr _) => true | _ => false end.

Definition optional_string (v : JSValue) : bool :=
  match v with None => true | Some (JStr _) => true | _ => false end.

Definition conforms_sound_payload (v : JSON) : bool :=
  match v with
  | JObj _ =>
      is_string (get v "src") && is_string (get v "filename")
      && optional_string (get v "username")
      && optional_string (get v "rewardName")
  | _ => false
  end.

(** The schema of a [play-video] payload: [src] a string, [username] and
    [rewardName] strings when present. *)
Definition conforms_video_payload (v : JSON) : bool :=
  match v with
  | JObj _ =>
      is_string (get v "src")
      && optional_string (get v "username")
      && optional_string (get v "rewardName")
  | _ => false
  end.

(** ** The dashboard *)

Module Dashboard.

Inductive Status : Type := disconnected | connecting | connected.

Record EventRecord : Type :=
  { id : string;
    type : string;
    timestamp : Z;
    data : JSValue;
    description : string }.

(** The [<audio>] element behind [audioRef]: the two properties the
    listener assigns. *)
Record Audio : Type := { audio_volume : Q; audio_src : string }.

(** The live [EventSource] of the connection effect: its listeners closed
    over the [volume] and [muted] of the render that ran the effect. *)
Record Listeners : Type := { es_id : nat; l_volume : Q; l_muted : bool }.

(** Calls on the platform, in the order they are made. *)
Inductive Call : Type :=
| New_EventSource (url : string)
| EventSource_close (n : nat)
| Audio_play (src : string) (vol : Q).

Record State : Type :=
  { (* useState *)
    status : Status;
    events : list EventRecord;
    volume : Q;
    muted : bool;
    connectedAt : option Z;
    eventCount : nat;
    soundsPlayed : nat;
    toast : option Toast;
    uptime : string;
    (* useRef *)
    audioRef : option Audio;
    (* held by the platform *)
    es : option Listeners;   (* the open EventSource, [None] before the effect ran *)
    plays : list JSON;       (* pending play() promises: the payload their catch closed over *)
    timers : list Z;         (* deadlines of the pending setTimeout(() => setToast(null)) *)
    time : Z;                (* the event loop's time, in ms *)
    reads : nat;             (* wall-clock reads made so far *)
    calls : list Call }.

Definition with_status (f : Status -> Status) (s : State) : State :=
  {| status := f (status s); events := events s; volume := volume s;
     muted := muted s; connectedAt := connectedAt s;
     eventCount := eventCount s; soundsPlayed := soundsPlayed s;
     toast := toast s; uptime := uptime s; audioRef := audioRef s;
     es := es s; plays := plays s; timers := timers s; time := time s;
     reads := reads s; calls := calls s |}.

Definition with_events (f : list EventRecord -> list EventRecord) (s : State) : State :=
  {| status := status s; events := f (events s); volume := volume s;
     muted := muted s; connectedAt := connectedAt s;
     eventCount := eventCount s; soundsPlayed := soundsPlayed s;
     toast := toast s; uptime := uptime s; audioRef := audioRef s;
     es := es s; plays := plays s; timers := timers s; time := time s;
     reads := reads s; calls := calls s |}.

Definition with_volume (f : Q -> Q) (s : State) : State :=
  {| status := status s; events := events s; volume := f (volume s);
     muted := muted s; connectedAt := connectedAt s;
     eventCount := eventCount s; soundsPlayed := soundsPlayed s;
     toast := toast s; uptime := uptime s; audioRef := audioRef s;
     es := es s; plays := plays s; timers := timers s; time := time s;
     reads := reads s; calls := calls s |}.

Definition with_muted (f : bool -> bool) (s : State) : State :=
  {| status := status s; events := events s; volume := volume s;
     muted := f (muted s); connectedAt := connectedAt s;
     eventCount := eventCount s; soundsPlayed := soundsPlayed s;
     toast := toast s; uptime := uptime s; audioRef := audioRef s;
     es := es s; plays := plays s; timers := timers s; time := time s;
     reads := reads s; calls := calls s |}.

Definition with_connectedAt (f : option Z -> option Z) (s : State) : State :=
  {| status := status s; events := events s; volume := volume s;
     muted := muted s; connectedAt := f (connectedAt s);
     eventCount := eventCount s; soundsPlayed := soundsPlayed s;
     toast := toast s; uptime := uptime s; audioRef := audioRef s;
     es := es s; plays := plays s; timers := timers s; time := time s;
     reads := reads s; calls := calls s |}.

Definition with_eventCount (f : nat -> nat) (s : State) : State :=
  {| status := status s; events := events s; volume := volume s;
     muted := muted s; connectedAt := connectedAt s;
     eventCount := f (eventCount s); soundsPlayed := soundsPlayed s;
     toast := toast s; uptime := uptime s; audioRef := audioRef s;
     es := es s; plays := plays s; timers := timers s; time := time s;
     reads := reads s; calls := calls s |}.

Definition with_soundsPlayed (f : nat -> nat) (s : State) : State :=
  {| status := status s; events := events s; volume := volume s;
     muted := muted s; connectedAt := connectedAt s;
     eventCount := eventCount s; soundsPlayed := f (soundsPlayed s);
     toast := toast s; uptime := uptime s; audioRef := audioRef s;
     es := es s; plays := plays s; timers := timers s; time := time s;
     reads := reads s; calls := calls s |}.

Definition with_toast (f : option Toast -> option Toast) (s : State) : State :=
  {| status := status s; events := events s; volume := volume s;
     muted := muted s; connectedAt := connectedAt s;
     eventCount := eventCount s; soundsPlayed := soundsPlayed s;
     toast := f (toast s); uptime := uptime s; audioRef := audioRef s;
     es := es s; plays := plays s; timers := timers s; time := time s;
     reads := reads s; calls := calls s |}.

Definition with_uptime (f : string -> string) (s : State) : State :=
  {| status := status s; events := events s; volume := volume s;
     muted := muted s; connectedAt := connectedAt s;
     eventCount := eventCount s; soundsPlayed := soundsPlayed s;
     toast := toast s; uptime := f (uptime s); audioRef := audioRef s;
     es := es s; plays := plays s; timers := timers s; time := time s;
     reads := reads s; calls := calls s |}.

Definition with_audioRef (f : option Audio -> option Audio) (s : State) : State :=
  {| status := status s; events := events s; volume := volume s;
     muted := muted s; connectedAt := connectedAt s;
     eventCount := eventCount s; soundsPlayed := soundsPlayed s;
     toast := toast s; uptime := uptime s; audioRef := f (audioRef s);
     es := es s; plays := plays s; timers := timers s; time := time s;
     reads := reads s; calls := calls s |}.

Definition with_es (f : option Listeners -> option Listeners) (s : State) : State :=
  {| status := status s; events := events s; volume := volume s;
     muted := muted s; connectedAt := connectedAt s;
     eventCount := eventCount s; soundsPlayed := soundsPlayed s;
     toast := toast s; uptime := uptime s; audioRef := audioRef s;
     es := f (es s); plays := plays s; timers := timers s; time := time s;
     reads := reads s; calls := calls s |}.

Definition with_plays (f : list JSON -> list JSON) (s : State) : State :=
  {| status := status s; events := events s; volume := volume s;
     muted := muted s; connectedAt := connectedAt s;
     eventCount := eventCount s; soundsPlayed := soundsPlayed s;
     toast := toast s; uptime := uptime s; audioRef := audioRef s;
     es := es s; plays := f (plays s); timers := timers s; time := time s;
     reads := reads s; calls := calls s |}.

Definition with_timers (f : list Z -> list Z) (s : State) : State :=
  {| status := status s; events := events s; volume := volume s;
     muted := muted s; connectedAt := connectedAt s;
     eventCount := eventCount s; soundsPlayed := soundsPlayed s;
     toast := toast s; uptime := uptime s; audioRef := audioRef s;
     es := es s; plays := plays s; timers := f (timers s); time := time s;
     reads := reads s; calls := calls s |}.

Definition with_time (f : Z -> Z) (s : State) : State :=
  {| status := status s; events := events s; volume := volume s;
     muted := muted s; connectedAt := connectedAt s;
     eventCount := eventCount s; soundsPlayed := soundsPlayed s;
     toast := toast s; uptime := uptime s; audioRef := audioRef s;
     es := es s; plays := plays s; timers := timers s; time := f (time s);
     reads := reads s; calls := calls s |}.

Definition with_reads (f : nat -> nat) (s : State) : State :=
  {| status := status s; events := events s; volume := volume s;
     muted := muted s; connectedAt := connectedAt s;
     eventCount := eventCount s; soundsPlayed := soundsPlayed s;
     toast := toast s; uptime := uptime s; audioRef := audioRef s;
     es := es s; plays := plays s; timers := timers s; time := time s;
     reads := f (reads s); calls := calls s |}.

Definition with_calls (f : list Call -> list Call) (s : State) : State :=
  {| status := status s; events := events s; volume := volume s;
     muted := muted s; connectedAt := connectedAt s;
     eventCount := eventCount s; soundsPlayed := soundsPlayed s;
     toast := toast s; uptime := uptime s; audioRef := audioRef s;
     es := es s; plays := plays s; timers := timers s; time := time s;
     reads := reads s; calls := f (calls s) |}.

(** The values of the [useState] initialisers, before the first effect. *)
Definition initial : State :=
  {| status := disconnected; events := []; volume := 0.7%Q; muted := false;
     connectedAt := None; eventCount := 0%nat; soundsPlayed := 0%nat;
     toast := None; uptime := "00:00:00"; audioRef := None;
     es := None; plays := []; timers := []; time := 0; reads := 0%nat;
     calls := [] |}.

Section Model.

(** [apiBase] is resolved from the environment when the module loads. *)
Variable apiBase : string.

(** The wall clock: its [n]-th read returns [clock n] milliseconds. *)
Variable clock : nat -> Z.

Local Open Scope js_scope.

Definition setStatus (v : Status) := modify (with_status (fun _ => v)).
Definition setEvents f := modify (with_events f).
Definition setVolume (v : Q) := modify (with_volume (fun _ => v)).
Definition setMuted (v : bool) := modify (with_muted (fun _ => v)).
Definition setConnectedAt (v : option Z) := modify (with_connectedAt (fun _ => v)).
Definition setEventCount f := modify (with_eventCount f).
Definition setSoundsPlayed f := modify (with_soundsPlayed f).
Definition setToast (v : option Toast) := modify (with_toast (fun _ => v)).
Definition setUptime (v : string) := modify (with_uptime (fun _ => v)).

Definition Date_now : JS State Z :=
  fun s => (Normal (clock (reads s)), with_reads S s).

Definition new_Date : JS State Z := Date_now.

Definition call (c : Call) : JS State unit :=
  modify (with_calls (fun l => (l ++ [c])%list)).

(** [setTimeout(() => setToast(null), ms)] *)
Definition setTimeout_clear_toast (ms : Z) : JS State unit :=
  t <- gets time ;;
  modify (with_timers (fun l => (l ++ [t + ms])%list)).

Definition addEvent (type description : string) (data : JSValue)
  : JS State unit :=
  now <- Date_now ;;
  stamp <- new_Date ;;
  let event :=
    {| id := Z_toString now; type := type; timestamp := stamp;
       data := data; description := description |} in
  setEvents (fun prev => event :: firstn 99 prev) ;;
  setEventCount (fun prev => (prev + 1)%nat).

Definition clearHistory : JS State unit :=
  setEvents (fun _ => []) ;;
  setEventCount (fun _ => 0%nat) ;;
  setSoundsPlayed (fun _ => 0%nat).

(** [n.toString().padStart(2, "0")] *)
Definition two_digits (n : Z) : string := padStart 2 "0" (Z_toString n).

(** [Math.floor(a / b)] for integers and [b > 0] is [a / b]; JavaScript's
    [%] takes the sign of the dividend, [Z.rem].  The closure is made anew
    whenever [connectedAt] changes, and the interval with it: a tick reads
    the [connectedAt] of the state. *)
Definition formatUptime : JS State string :=
  c <- gets connectedAt ;;
  match c with
  | None => ret "00:00:00"
  | Some connectedAt_ms =>
      now <- Date_now ;;
      let diff := now - connectedAt_ms in
      let hours := diff / (1000 * 60 * 60) in
      let minutes := Z.rem diff (1000 * 60 * 60) / (1000 * 60) in
      let seconds := Z.rem diff (1000 * 60) / 1000 in
      ret (two_digits hours ++ ":" ++ two_digits minutes ++ ":"
           ++ two_digits seconds)
  end.

(** The callback of [setInterval(..., 1000)]. *)
Definition uptime_tick : JS State unit :=
  u <- formatUptime ;;
  setUptime u.

(** [es.onopen] *)
Definition onopen : JS State unit :=
  setStatus connected ;;
  d <- new_Date ;;
  setConnectedAt (Some d) ;;
  addEvent "connection" "Connected to server" None.

(** The listener of ["connected"]. *)
Definition connected_listener : JS State unit :=
  setStatus connected ;;
  d <- new_Date ;;
  setConnectedAt (Some d) ;;
  addEvent "connection" "Server connection established" None.

(** The callback of [audio.play().catch(...)], closed over [payload]. *)
Definition play_rejected (payload : JSON) : JS State unit :=
  filename <- prop payload "filename" ;;
  name <- interpolate filename ;;
  addEvent "error" ("Failed to play: " ++ name) None.

(** [audio.play().catch(...)]: the request goes out with the element's
    source and volume, the promise stays pending. *)
Definition audio_play (audio : Audio) (payload : JSON) : JS State unit :=
  call (Audio_play (audio_src audio) (audio_volume audio)) ;;
  modify (with_plays (fun l => (l ++ [payload])%list)).

(** The listener of ["play-sound"]; [volume] and [muted] are the values it
    closed over.  [audio] and [audioRef.current] are one object: an
    assignment to a property of [audio] is a write through the ref.  The
    two template literals convert [payload.filename] and [payload.src]; a
    conversion that throws leaves what was done before it and goes to the
    [catch]. *)
Definition play_sound_listener (volume : Q) (muted : bool) (e_data : MessageData)
  : JS State unit :=
  try_catch
    (payload <- JSON_parse e_data ;;
     filename <- prop payload "filename" ;;
     name <- interpolate filename ;;
     addEvent "sound" ("Playing: " ++ name) (Some payload) ;;
     setSoundsPlayed (fun prev => (prev + 1)%nat) ;;
     when (negb muted)
       (cur <- gets audioRef ;;
        let audio :=
          match cur with
          | Some a => a
          | None => {| audio_volume := 1; audio_src := "" |}
          end in
        modify (with_audioRef (fun _ => Some audio)) ;;
        let audio := {| audio_volume := volume; audio_src := audio_src audio |} in
        modify (with_audioRef (fun _ => Some audio)) ;;
        src <- prop payload "src" ;;
        path <- interpolate src ;;
        let audio :=
          {| audio_volume := audio_volume audio;
             audio_src := apiBase ++ path |} in
        modify (with_audioRef (fun _ => Some audio)) ;;
        audio_play audio payload) ;;
     username <- prop payload "username" ;;
     rewardName <- prop payload "rewardName" ;;
     when (truthy username && truthy rewardName)
       (setToast (Some {| username := username; rewardName := rewardName |}) ;;
        setTimeout_clear_toast 5000))
    (fun _ => addEvent "error" "Failed to parse sound event" None).

(** [es.onerror]; the [console.error] is left out. *)
Definition onerror : JS State unit :=
  setStatus connecting ;;
  addEvent "error" "Connection lost, attempting to reconnect..." None.

(** The body of the connection effect, deps [[volume, muted]]. *)
Definition connection_effect : JS State unit :=
  setStatus connecting ;;
  addEvent "system" "Connecting to server..." None ;;
  n <- gets (fun s => List.length (calls s)) ;;
  v <- gets volume ;;
  m <- gets muted ;;
  call (New_EventSource (apiBase ++ "/events")) ;;
  modify (with_es (fun _ => Some {| es_id := n; l_volume := v; l_muted := m |})).

(** The function the effect returns. *)
Definition connection_cleanup (l : Listeners) : JS State unit :=
  call (EventSource_close (es_id l)) ;;
  modify (with_es (fun _ => None)) ;;
  addEvent "system" "Disconnected from server" None.

(** A render whose [volume] or [muted] differs from the previous one:
    React runs the previous effect's cleanup, then the effect. *)
Definition rerun_connection_effect : JS State unit :=
  l <- gets es ;;
  match l with
  | Some l => connection_cleanup l ;; connection_effect
  | None => connection_effect
  end.

(** The slider's [onChange]: [setVolume(Number(e.target.value))].  A state
    set to the value it has gives no render. *)
Definition volume_onChange (v : Q) : JS State unit :=
  old <- gets volume ;;
  if Qeq_bool v old then ret tt
  else setVolume v ;; rerun_connection_effect.

(** The mute button's [onClick]: [setMuted(!muted)]. *)
Definition mute_onClick : JS State unit :=
  m <- gets muted ;;
  setMuted (negb m) ;;
  rerun_connection_effect.

(** The first commit: React attaches [audioRef] to the [<audio>] element
    and runs the effects. *)
Definition mount : JS State unit :=
  modify (with_audioRef (fun _ => Some {| audio_volume := 1; audio_src := "" |})) ;;
  connection_effect.

(** The [k]-th pending [play()] promise settles. *)
Definition play_settled (k : nat) (fulfilled : bool) : JS State unit :=
  ps <- gets plays ;;
  match nth_error ps k with
  | Some payload =>
      modify (with_plays (fun l => (firstn k l ++ skipn (S k) l)%list)) ;;
      if fulfilled then ret tt else play_rejected payload
  | None => ret tt
  end.

(** The callbacks of the timers that have come due, [setToast(null)]
    each. *)
Fixpoint run_timers (due : list Z) : JS State unit :=
  match due with
  | [] => ret tt
  | _ :: r => setToast None ;; run_timers r
  end.

(** The event loop's time advances by [ms] and the timers due by then
    run.  Time passes in these steps only: a handler runs at the time the
    last of them left. *)
Definition elapse (ms : Z) : JS State unit :=
  modify (with_time (fun t => t + Z.max 0 ms)) ;;
  t <- gets time ;;
  ts <- gets timers ;;
  modify (with_timers (pending t)) ;;
  run_timers (due t ts).

(** What can happen to the dashboard. *)
Inductive Step : Type :=
| Mount
| Open
| Connected
| PlaySound (e_data : MessageData)
| Error
| PlaySettled (k : nat) (fulfilled : bool)
| VolumeInput (v : Q)
| MuteClick
| ClearClick
| IntervalTick
| Elapse (ms : Z).

(** Listeners and UI handlers exist once the component is mounted; the
    listeners of the [EventSource] are those of the live one.  A step is a
    handler run to its end; the render that follows it is [renders],
    below. *)
Definition dispatch (e : Step) : JS State unit :=
  l <- gets es ;;
  match e, l with
  | Mount, None => mount
  | Mount, Some _ => ret tt
  | Open, Some _ => onopen
  | Connected, Some _ => connected_listener
  | PlaySound d, Some l => play_sound_listener (l_volume l) (l_muted l) d
  | Error, Some _ => onerror
  | VolumeInput v, Some _ => volume_onChange v
  | MuteClick, Some _ => mute_onClick
  | ClearClick, Some _ => clearHistory
  | IntervalTick, Some _ => uptime_tick
  | PlaySettled k ok, _ => play_settled k ok
  | Elapse ms, _ => elapse ms
  | _, None => ret tt
  end.

Definition handle (s : State) (e : Step) : State := exec (dispatch e) s.

Definition run (l : list Step) (s : State) : State := fold_left handle l s.

(** [record] calls made one after the other. *)
Fixpoint record_all (l : list (string * string * JSValue)) : JS State unit :=
  match l with
  | [] => ret tt
  | (ty, de, da) :: r => bind (addEvent ty de da) (fun _ => record_all r)
  end.

(** A teardown and a new connection: what the re-run of the connection
    effect leaves behind, from [s] with the live [EventSource] [l]. *)
Definition reconnected (l : Listeners) (s s' : State) : Prop :=
  calls s'
  = (calls s ++ [EventSource_close (es_id l);
                 New_EventSource (apiBase ++ "/events")])%list
  /\ status s' = connecting
  /\ events s'
     = {| id := Z_toString (clock (S (S (reads s)))); type := "system";
          timestamp := clock (S (S (S (reads s)))); data := None;
          description := "Connecting to server..." |}
       :: {| id := Z_toString (clock (reads s)); type := "system";
             timestamp := clock (S (reads s)); data := None;
             description := "Disconnected from server" |}
       :: firstn 98 (events s)
  /\ eventCount s' = (eventCount s + 1 + 1)%nat
  /\ es s'
     = Some {| es_id := S (List.length (calls s));
               l_volume := volume s'; l_muted := muted s' |}
  /\ es_id l <> S (List.length (calls s)).

(** What a parse failure leaves behind: one "error" record, nothing
    played, nothing counted as a sound. *)
Definition parse_failure_recorded (s s' : State) : Prop :=
  events s'
  = {| id := Z_toString (clock (reads s)); type := "error";
       timestamp := clock (S (reads s)); data := None;
       description := "Failed to parse sound event" |}
    :: firstn 99 (events s)
  /\ eventCount s' = (eventCount s + 1)%nat
  /\ soundsPlayed s' = soundsPlayed s
  /\ calls s' = calls s
  /\ plays s' = plays s
  /\ audioRef s' = audioRef s
  /\ toast s' = toast s
  /\ timers s' = timers s
  /\ status s' = status s.

End Model.

(** What holds in every state the dashboard reaches. *)
Record Inv (s : State) : Prop :=
  { inv_closure : forall l, es s = Some l ->
      l_muted l = muted s /\ l_volume l = volume s
      /\ status s <> disconnected /\ audioRef s <> None
      /\ (es_id l < List.length (calls s))%nat;
    inv_plays :
      Forall (fun p => p <> JNull /\ converts (get p "filename") = true)
        (plays s);
    inv_history :
      List.length (events s) = Nat.min (eventCount s) 100 }.

(** The steps that set a toast. *)
Definition toasting (e : Step) : bool :=
  match e with
  | PlaySound (Some payload) => qualifying payload
  | _ => false
  end.

(** The toast set at the deadline [T - 5000] is on show until [T], and
    its timer is among the pending ones until then. *)
Definition toast_inv (T : Z) (shown : option Toast) (s : State) : Prop :=
  Forall (fun d => T <= d) (timers s)
  /\ (time s < T -> In T (timers s))
  /\ toast s = (if time s <? T then shown else None).

(** The render of a state: the toast is the one part of it that can
    throw, the rest shows strings and counters of the component's own
    making.  The steps are those of a dashboard that is on screen: a step
    that leaves a state which does not render is the component's last. *)
Definition renders (s : State) : bool := toast_renders (toast s).

(** The steps that cannot set a toast which does not render: all but a cue
    whose names do not render. *)
Definition keeps_rendering (e : Step) : bool :=
  match e with
  | PlaySound (Some payload) => toast_renders (toast_of payload)
  | _ => true
  end.

End Dashboard.

(** ** The video overlay *)

Module VideoOverlay.

(** The [<video>] element behind [videoRef]: its [src] attribute and the
    two properties [playVideo] assigns. *)
Record Video : Type :=
  { video_src : option string; video_muted : bool; video_volume : Q }.

(** Calls on the platform, in the order they are made. *)
Inductive Call : Type :=
| New_EventSource (url : string)
| Pause
| RemoveAttribute (name : string)
| Load
| Set_src (url : string)
| Set_muted (b : bool)
| Set_volume (v : Q)
| Play.

Record State : Type :=
  { (* useState *)
    visible : bool;
    toast : option Toast;
    (* useRef *)
    videoRef : option Video;
    (* held by the platform *)
    es : bool;          (* the EventSource of the effect is open *)
    plays : nat;        (* pending play() promises *)
    timers : list Z;    (* deadlines of the pending setTimeout(() => setToast(null)) *)
    time : Z;           (* the event loop's time, in ms *)
    calls : list Call }.

Definition with_visible (f : bool -> bool) (s : State) : State :=
  {| visible := f (visible s); toast := toast s; videoRef := videoRef s;
     es := es s; plays := plays s; timers := timers s; time := time s;
     calls := calls s |}.

Definition with_toast (f : option Toast -> option Toast) (s : State) : State :=
  {| visible := visible s; toast := f (toast s); videoRef := videoRef s;
     es := es s; plays := plays s; timers := timers s; time := time s;
     calls := calls s |}.

Definition with_videoRef (f : option Video -> option Video) (s : State) : State :=
  {| visible := visible s; toast := toast s; videoRef := f (videoRef s);
     es := es s; plays := plays s; timers := timers s; time := time s;
     calls := calls s |}.

Definition with_es (f : bool -> bool) (s : State) : State :=
  {| visible := visible s; toast := toast s; videoRef := videoRef s;
     es := f (es s); plays := plays s; timers := timers s; time := time s;
     calls := calls s |}.

Definition with_plays (f : nat -> nat) (s : State) : State :=
  {| visible := visible s; toast := toast s; videoRef := videoRef s;
     es := es s; plays := f (plays s); timers := timers s; time := time s;
     calls := calls s |}.

Definition with_timers (f : list Z -> list Z) (s : State) : State :=
  {| visible := visible s; toast := toast s; videoRef := videoRef s;
     es := es s; plays := plays s; timers := f (timers s); time := time s;
     calls := calls s |}.

Definition with_time (f : Z -> Z) (s : State) : State :=
  {| visible := visible s; toast := toast s; videoRef := videoRef s;
     es := es s; plays := plays s; timers := timers s; time := f (time s);
     calls := calls s |}.

Definition with_calls (f : list Call -> list Call) (s : State) : State :=
  {| visible := visible s; toast := toast s; videoRef := videoRef s;
     es := es s; plays := plays s; timers := timers s; time := time s;
     calls := f (calls s) |}.

Definition initial : State :=
  {| visible := false; toast := None; videoRef := None; es := false;
     plays := 0%nat; timers := []; time := 0; calls := [] |}.

(** The component's constants. *)
Definition muted : bool := true.
Definition volume : Q := 1.

Section Model.

Variable apiBase : string.

Local Open Scope js_scope.

Definition setVisible (v : bool) := modify (with_visible (fun _ => v)).
Definition setToast (v : option Toast) := modify (with_toast (fun _ => v)).

Definition call (c : Call) : JS State unit :=
  modify (with_calls (fun l => (l ++ [c])%list)).

(** A write to the element [el], which is [videoRef.current]. *)
Definition assign (el : Video) : JS State unit :=
  modify (with_videoRef (fun _ => Some el)).

Definition setTimeout_clear_toast (ms : Z) : JS State unit :=
  t <- gets time ;;
  modify (with_timers (fun l => (l ++ [t + ms])%list)).

(** [try { el.pause() } catch { }; el.removeAttribute("src"); el.load()],
    the reset [playVideo], [onEnded] and [onError] share. *)
Definition reset (el : Video) : JS State Video :=
  try_catch (call Pause) (fun _ => ret tt) ;;
  call (RemoveAttribute "src") ;;
  let el :=
    {| video_src := None; video_muted := video_muted el;
       video_volume := video_volume el |} in
  assign el ;;
  call Load ;;
  ret el.

(** [playVideo]: nothing without the element; else the reset, the new
    source, [muted], [volume], [setVisible(true)], [play()] with its
    rejection swallowed, and the toast.  The template literal of the new
    source converts [src]: a conversion that throws leaves [playVideo]
    after the reset. *)
Definition playVideo (src username rewardName : JSValue) : JS State unit :=
  cur <- gets videoRef ;;
  match cur with
  | None => ret tt
  | Some el =>
      el <- reset el ;;
      path <- interpolate src ;;
      let url := apiBase ++ path in
      call (Set_src url) ;;
      let el :=
        {| video_src := Some url; video_muted := video_muted el;
           video_volume := video_volume el |} in
      assign el ;;
      call (Set_muted muted) ;;
      let el :=
        {| video_src := video_src el; video_muted := muted;
           video_volume := video_volume el |} in
      assign el ;;
      call (Set_volume volume) ;;
      let el :=
        {| video_src := video_src el; video_muted := video_muted el;
           video_volume := volume |} in
      assign el ;;
      setVisible true ;;
      call Play ;;
      modify (with_plays S) ;;
      when (truthy username && truthy rewardName)
        (setToast (Some {| username := username; rewardName := rewardName |}) ;;
         setTimeout_clear_toast 5000)
  end.

(** The listener of ["play-video"]. *)
Definition play_video_listener (e_data : MessageData) : JS State unit :=
  try_catch
    (payload <- JSON_parse e_data ;;
     src <- prop payload "src" ;;
     username <- prop payload "username" ;;
     rewardName <- prop payload "rewardName" ;;
     playVideo src username rewardName)
    (fun _ => ret tt).

(** [onEnded] and [onError] of the [<video>] element have the same body:
    the reset when the ref holds the element, then [setVisible(false)]. *)
Definition onEnded : JS State unit :=
  cur <- gets videoRef ;;
  match cur with
  | Some el => el <- reset el ;; ret tt
  | None => ret tt
  end ;;
  setVisible false.

Definition onError : JS State unit :=
  cur <- gets videoRef ;;
  match cur with
  | Some el => el <- reset el ;; ret tt
  | None => ret tt
  end ;;
  setVisible false.

(** The first commit: React attaches [videoRef] to the [<video muted>]
    element and runs the effect. *)
Definition mount : JS State unit :=
  assign {| video_src := None; video_muted := muted; video_volume := 1 |} ;;
  call (New_EventSource (apiBase ++ "/events")) ;;
  modify (with_es (fun _ => true)).

(** A pending [play()] promise settles: [.catch(() => undefined)]. *)
Definition play_settled (fulfilled : bool) : JS State unit :=
  modify (with_plays Nat.pred).

Fixpoint run_timers (due : list Z) : JS State unit :=
  match due with
  | [] => ret tt
  | _ :: r => setToast None ;; run_timers r
  end.

Definition elapse (ms : Z) : JS State unit :=
  modify (with_time (fun t => t + Z.max 0 ms)) ;;
  t <- gets time ;;
  ts <- gets timers ;;
  modify (with_timers (pending t)) ;;
  run_timers (due t ts).

Inductive Step : Type :=
| Mount
| PlayVideo (e_data : MessageData)
| Ended
| MediaError
| PlaySettled (fulfilled : bool)
| Elapse (ms : Z).

(** [es.onopen], [es.onerror] and the listener of ["connected"] are
    [() => undefined] and are left out.  A step is a handler run to its
    end; the render that follows it is [renders], below. *)
Definition dispatch (e : Step) : JS State unit :=
  open <- gets es ;;
  match e, open with
  | Mount, false => mount
  | Mount, true => ret tt
  | PlayVideo d, true => play_video_listener d
  | Ended, true => onEnded
  | MediaError, true => onError
  | PlaySettled ok, _ => play_settled ok
  | Elapse ms, _ => elapse ms
  | _, false => ret tt
  end.

Definition handle (s : State) (e : Step) : State := exec (dispatch e) s.

Definition run (l : list Step) (s : State) : State := fold_left handle l s.

(** The calls a step makes: what it appends to the log. *)
Definition calls_of (s : State) (e : Step) : list Call :=
  skipn (List.length (calls s)) (calls (handle s e)).

End Model.

(** Once the effect has run, the ref holds the element. *)
Definition Inv (s : State) : Prop := es s = true -> videoRef s <> None.

(** The steps that set a toast. *)
Definition toasting (e : Step) : bool :=
  match e with
  | PlayVideo (Some payload) => qualifying payload
  | _ => false
  end.

Definition toast_inv (T : Z) (shown : option Toast) (s : State) : Prop :=
  Forall (fun d => T <= d) (timers s)
  /\ (time s < T -> In T (timers s))
  /\ toast s = (if time s <? T then shown else None).

(** The render of a state, as for the dashboard: a step that leaves a
    state which does not render is the overlay's last. *)
Definition renders (s : State) : bool := toast_renders (toast s).

Definition keeps_rendering (e : Step) : bool :=
  match e with
  | PlayVideo (Some payload) => toast_renders (toast_of payload)
  | _ => true
  end.

End VideoOverlay.

(** ** The application shell *)

Inductive Screen : Type :=
| VideoOverlayScreen
| TermsOfServiceScreen
| PrivacyPolicyScreen
| DashboardScreen.

Definition App (pathname : string) : Screen :=
  if (pathname =? "/video")%string then VideoOverlayScreen
  else if (pathname =? "/tos")%string then TermsOfServiceScreen
  else if (pathname =? "/privacy")%string then PrivacyPolicyScreen
  else DashboardScreen.

(** The component on screen, with its state. *)
Inductive Client : Type :=
| DashboardClient (d : Dashboard.State)
| VideoOverlayClient (v : VideoOverlay.State).

(** The history log on screen.  [VideoOverlay] declares no [events] state
    and has no [addEvent]. *)
Definition history (c : Client) : list Dashboard.EventRecord :=
  match c with
  | DashboardClient d => Dashboard.events d
  | VideoOverlayClient _ => []
  end.

(** The type, description and data of the newest record of the log. *)
Definition newest (s : Dashboard.State) : option (string * string * JSValue) :=
  option_map
    (fun r => (Dashboard.type r, Dashboard.description r, Dashboard.data r))
    (hd_error (Dashboard.events s)).

(** The transitions the specification lists for [ConnectionStatus]. *)
Definition listed_transition (a b : Dashboard.Status) : bool :=
  match a, b with
  | Dashboard.disconnected, Dashboard.connecting => true
  | Dashboard.connecting, Dashboard.connected => true
  | Dashboard.connected, Dashboard.connecting => true
  | Dashboard.connecting, Dashboard.connecting => true
  | _, _ => false
  end.

(** ** The module level and the status badge *)

Module Shell.

(** [a || b] on an environment variable, a string or [undefined]: the
    empty string is falsy. *)
Definition or_else (a : option string) (b : string) : string :=
  match a with
  | Some u => if (u =? "")%string then b else u
  | None => b
  end.

(** [apiBase]: [import.meta.env.VITE_API_BASE_URL], else by the host name
    of the page. *)
Definition apiBase (VITE_API_BASE_URL : option string) (hostname : string)
  : string :=
  or_else VITE_API_BASE_URL
    (if (hostname =? "localhost")%string || (hostname =? "127.0.0.1")%string
     then "http://localhost:8787"
     else "https://hlp-api.onrender.com").

Definition getStatusColor (status : Dashboard.Status) : string :=
  match status with
  | Dashboard.connected => "#22c55e"
  | Dashboard.connecting => "#f59e0b"
  | Dashboard.disconnected => "#f87171"
  end.

Definition getStatusIcon (status : Dashboard.Status) : string :=
  match status with
  | Dashboard.connected => "●"
  | Dashboard.connecting => "◐"
  | Dashboard.disconnected => "○"
  end.

End Shell.

(** ** The other revision of [App.tsx] *)

Module EarlierRevision.

(** The [useMemo] constants of the two components. *)
Definition Dashboard_apiBase : string := "https://hlp-api.onrender.com".
Definition VideoOverlay_apiBase : string := "http://localhost:8787".

Section Model.

Variable apiBase : string.
Variable clock : nat -> Z.

Local Open Scope js_scope.

(** The listener of ["play-sound"]: the one of the fuller revision
    without the toast. *)
Definition play_sound_listener (volume : Q) (muted : bool) (e_data : MessageData)
  : JS Dashboard.State unit :=
  try_catch
    (payload <- JSON_parse e_data ;;
     filename <- prop payload "filename" ;;
     name <- interpolate filename ;;
     Dashboard.addEvent clock "sound" ("Playing: " ++ name) (Some payload) ;;
     Dashboard.setSoundsPlayed (fun prev => (prev + 1)%nat) ;;
     when (negb muted)
       (cur <- gets Dashboard.audioRef ;;
        let audio :=
          match cur with
          | Some a => a
          | None => {| Dashboard.audio_volume := 1; Dashboard.audio_src := "" |}
          end in
        modify (Dashboard.with_audioRef (fun _ => Some audio)) ;;
        let audio :=
          {| Dashboard.audio_volume := volume;
             Dashboard.audio_src := Dashboard.audio_src audio |} in
        modify (Dashboard.with_audioRef (fun _ => Some audio)) ;;
        src <- prop payload "src" ;;
        path <- interpolate src ;;
        let audio :=
          {| Dashboard.audio_volume := Dashboard.audio_volume audio;
             Dashboard.audio_src := apiBase ++ path |} in
        modify (Dashboard.with_audioRef (fun _ => Some audio)) ;;
        Dashboard.audio_play audio payload))
    (fun _ => Dashboard.addEvent clock "error" "Failed to parse sound event" None).

(** [document.createElement("video")] *)
Definition createElement_video : VideoOverlay.Video :=
  {| VideoOverlay.video_src := None; VideoOverlay.video_muted := false;
     VideoOverlay.video_volume := 1 |}.

(** [playVideo]: an empty ref gets a new element.  The source is
    converted as in the fuller revision. *)
Definition playVideo (src : JSValue) : JS VideoOverlay.State unit :=
  cur <- gets VideoOverlay.videoRef ;;
  let el := match cur with Some el => el | None => createElement_video end in
  match cur with
  | Some _ => ret tt
  | None => VideoOverlay.assign el
  end ;;
  el <- VideoOverlay.reset el ;;
  path <- interpolate src ;;
  let url := apiBase ++ path in
  VideoOverlay.call (VideoOverlay.Set_src url) ;;
  let el :=
    {| VideoOverlay.video_src := Some url;
       VideoOverlay.video_muted := VideoOverlay.video_muted el;
       VideoOverlay.video_volume := VideoOverlay.video_volume el |} in
  VideoOverlay.assign el ;;
  VideoOverlay.call (VideoOverlay.Set_muted VideoOverlay.muted) ;;
  let el :=
    {| VideoOverlay.video_src := VideoOverlay.video_src el;
       VideoOverlay.video_muted := VideoOverlay.muted;
       VideoOverlay.video_volume := VideoOverlay.video_volume el |} in
  VideoOverlay.assign el ;;
  VideoOverlay.call (VideoOverlay.Set_volume VideoOverlay.volume) ;;
  let el :=
    {| VideoOverlay.video_src := VideoOverlay.video_src el;
       VideoOverlay.video_muted := VideoOverlay.video_muted el;
       VideoOverlay.video_volume := VideoOverlay.volume |} in
  VideoOverlay.assign el ;;
  VideoOverlay.setVisible true ;;
  VideoOverlay.call VideoOverlay.Play ;;
  modify (VideoOverlay.with_plays S).

(** The listener of ["play-video"]. *)
Definition play_video_listener (e_data : MessageData)
  : JS VideoOverlay.State unit :=
  try_catch
    (payload <- JSON_parse e_data ;;
     src <- prop payload "src" ;;
     playVideo src)
    (fun _ => ret tt).

End Model.

End EarlierRevision.

(** ** Predicates on the states of the two components *)

(** The types [addEvent] is called with. *)
Definition record_types : list string :=
  ["system"; "connection"; "sound"; "error"].

(** What a record shows: its type, description and data. *)
Definition shown (r : Dashboard.EventRecord) : string * string * JSValue :=
  (Dashboard.type r, Dashboard.description r, Dashboard.data r).

(** The [EventSource]s that are open after the calls [l]: a source is
    known by the position of the call that made it. *)
Definition source_step (acc : list nat * nat) (c : Dashboard.Call)
  : list nat * nat :=
  let (open, pos) := acc in
  match c with
  | Dashboard.New_EventSource _ => (pos :: open, S pos)
  | Dashboard.EventSource_close n =>
      (filter (fun k => negb (k =? n)%nat) open, S pos)
  | Dashboard.Audio_play _ _ => (open, S pos)
  end.

Definition open_sources (l : list Dashboard.Call) : list nat :=
  fst (fold_left source_step l ([], 0%nat)).

(** The records of a log made with the clock reads before the [n]-th: each
    has the id of one read and the timestamp of the next, newer records
    first. *)
Definition stamped (clock : nat -> Z) (n : nat) (l : list Dashboard.EventRecord)
  : Prop :=
  Forall
    (fun r => exists k, (S k < n)%nat
                /\ Dashboard.id r = Z_toString (clock k)
                /\ Dashboard.timestamp r = clock (S k)) l
  /\ ForallOrdPairs
       (fun a b => Dashboard.timestamp b < Dashboard.timestamp a) l.

(** The pending clearances of a toast fall due within the next 5000 ms,
    and a toast on show has one pending. *)
Definition clearance_pending (now : Z) (deadlines : list Z) (t : option Toast)
  : Prop :=
  Forall (fun d => now < d <= now + 5000) deadlines
  /\ (t <> None -> deadlines <> []).

(** The [<video>] element of the overlay is muted at full volume, and has
    no source while the overlay is hidden. *)
Definition silent_and_blank (s : VideoOverlay.State) : Prop :=
  forall el, VideoOverlay.videoRef s = Some el ->
    VideoOverlay.video_muted el = true
    /\ VideoOverlay.video_volume el = 1%Q
    /\ (VideoOverlay.visible s = false -> VideoOverlay.video_src el = None).

(** ** Sample data *)

(** The payload of a cue. *)
Definition cue_payload (src filename user reward : string) : JSON :=
  JObj [("src", JStr src); ("filename", JStr filename);
        ("username", JStr user); ("rewardName", JStr reward)].

Definition a_clock (n : nat) : Z := 1700000000000 + Z.of_nat n.

Definition api : string := "http://localhost:8787".

Definition horn : JSON :=
  JObj [("src", JStr "/sounds/horn.mp3"); ("filename", JStr "horn.mp3")].

(** An object that does not convert to a string, [{"toString": 1}]: its
    own [toString] hides the inherited method. *)
Definition no_string : JSON := JObj [("toString", JNum "1" false)].

(** The wall clock of a session: the dashboard mounts at one millisecond,
    everything after happens five seconds later, within one millisecond. *)
Definition coarse_clock (n : nat) : Z :=
  if (n <? 2)%nat then 1700000000000 else 1700000005000.

(** ** Tactics *)

(** Case analysis on a scrutinee the goal is stuck on, one that has no
    stuck scrutinee inside. *)
Ltac stuck_on x :=
  lazymatch x with
  | context [match _ with _ => _ end] => fail
  | _ => destruct x eqn:?
  end.

Ltac innermost :=
  match goal with
  | |- context [match ?x with _ => _ end] => stuck_on x
  end.

(** Run a handler: unfold the monad, compute, split on what is unknown. *)
Ltac crunch :=
  repeat (cbn in *;
          unfold bind, gets, modify, ret, throw, try_catch, when,
            interpolate in *;
          cbn in *; try innermost).

(** ** The platform functions at work *)

Example padStart_7 : padStart 2 "0" "7" = "07".
Proof. reflexivity. Qed.

Example padStart_123 : padStart 2 "0" "123" = "123".
Proof. reflexivity. Qed.

Example ToString_array :
  ToString (Some (JArr [JNum "1" false; JNull; JStr "a"])) = "1,,a".
Proof. reflexivity. Qed.

(** A payload of the schema is an object whose [src] and [filename] are
    strings, and whose [username] and [rewardName] are strings where it has
    them. *)
Lemma conforms_fields payload :
  conforms_sound_payload payload = true ->
  exists fields src filename,
    payload = JObj fields
    /\ own_property "src" fields = Some (JStr src)
    /\ own_property "filename" fields = Some (JStr filename)
    /\ optional_string (own_property "username" fields) = true
    /\ optional_string (own_property "rewardName" fields) = true.
Proof.
  destruct payload as [| | | | |fields]; try discriminate. cbn.
  destruct (own_property "src" fields) as [[| | |a| |]|] eqn:Es;
    try discriminate.
  destruct (own_property "filename" fields) as [[| | |b| |]|] eqn:Ef;
    try discriminate.
  cbn. intros H. apply andb_prop in H. destruct H as [Hu Hr].
  exists fields, a, b. repeat split; auto.
Qed.

(** A string converts and renders, and so does a value that is absent. *)
Lemma optional_string_converts v :
  optional_string v = true -> converts v = true /\ renders_child v = true.
Proof. destruct v as [[| | | | |]|]; cbn; auto; discriminate. Qed.

(** The fields of a payload of the schema convert, and the toast made of
    it renders. *)
Lemma conforms_converts payload :
  conforms_sound_payload payload = true ->
  converts (get payload "src") = true
  /\ converts (get payload "filename") = true
  /\ toast_renders (toast_of payload) = true.
Proof.
  intros H.
  destruct (conforms_fields _ H) as (fields & a & b & -> & Es & Ef & Hu & Hr).
  cbn. rewrite Es, Ef.
  destruct (optional_string_converts _ Hu) as [_ ->].
  destruct (optional_string_converts _ Hr) as [_ ->]. auto.
Qed.

Lemma conforms_video_converts payload :
  conforms_video_payload payload = true ->
  converts (get payload "src") = true
  /\ toast_renders (toast_of payload) = true.
Proof.
  destruct payload as [| | | | |fields]; try discriminate. cbn.
  destruct (own_property "src" fields) as [[| | |a| |]|]; try discriminate.
  cbn. intros H. apply andb_prop in H. destruct H as [Hu Hr].
  destruct (optional_string_converts _ Hu) as [_ ->].
  destruct (optional_string_converts _ Hr) as [_ ->]. auto.
Qed.

Example to_string_throws :
  to_string (Some no_string) = None
  /\ to_string (Some (JArr [JStr "a"; no_string])) = None
  /\ to_string (Some (JObj [("valueOf", JNull)])) = Some "[object Object]"
  /\ to_string (Some (JNum "1e+21" false)) = Some "1e+21".
Proof. repeat split. Qed.

(** ** Properties of the history log *)

Module HistoryFacts.
Import Dashboard.

Section Facts.

Variable clock : nat -> Z.

Lemma addEvent_events ty de da s :
  events (exec (addEvent clock ty de da) s)
  = {| id := Z_toString (clock (reads s)); type := ty;
       timestamp := clock (S (reads s)); data := da; description := de |}
    :: firstn 99 (events s).
Proof. reflexivity. Qed.

Lemma addEvent_eventCount ty de da s :
  eventCount (exec (addEvent clock ty de da) s) = (eventCount s + 1)%nat.
Proof. reflexivity. Qed.

Lemma addEvent_normal ty de da s :
  completion (addEvent clock ty de da) s = Normal tt.
Proof. reflexivity. Qed.

Lemma addEvent_length ty de da s :
  List.length (events (exec (addEvent clock ty de da) s))
  = Nat.min (List.length (events s) + 1) 100.
Proof.
  rewrite addEvent_events. cbn [List.length]. rewrite length_firstn. lia.
Qed.

Lemma record_all_from l : forall s,
  List.length (events s) = Nat.min (eventCount s) 100 ->
  List.length (events (exec (record_all clock l) s))
  = Nat.min (eventCount s + List.length l) 100
  /\ eventCount (exec (record_all clock l) s) = (eventCount s + List.length l)%nat.
Proof.
  induction l as [|[[ty de] da] r IH]; intros s Hs.
  - cbn. split; lia.
  - change (exec (record_all clock ((ty, de, da) :: r)) s)
      with (exec (record_all clock r) (exec (addEvent clock ty de da) s)).
    destruct (IH (exec (addEvent clock ty de da) s)) as [Hlen Hcount].
    + rewrite addEvent_length, addEvent_eventCount. lia.
    + rewrite Hlen, Hcount, addEvent_eventCount. cbn [List.length]. split; lia.
Qed.

(** C1.  After [N] calls of [addEvent] on the empty history the log holds
    [min N 100] records and [eventCount] is [N]: the counter goes up on
    every call, also once the log truncates.  [clearHistory] leaves an
    empty log and sets [eventCount] and [soundsPlayed] to 0, from any
    state. *)
Theorem history_length_and_count (l : list (string * string * JSValue)) :
  let s := exec (record_all clock l) initial in
  List.length (events s) = Nat.min (List.length l) 100
  /\ eventCount s = List.length l
  /\ (forall s0 : State,
        let c := exec clearHistory s0 in
        List.length (events c) = 0%nat
        /\ eventCount c = 0%nat
        /\ soundsPlayed c = 0%nat).
Proof.
  destruct (record_all_from l initial eq_refl) as [Hlen Hcount].
  cbn zeta. rewrite Hlen, Hcount. cbn. repeat split.
Qed.

End Facts.

Example history_150 :
  let s := exec (record_all (fun _ => 0) (repeat ("sound", "Playing: a.mp3", None) 150))
             initial in
  (List.length (events s), eventCount s) = (100%nat, 150%nat).
Proof. vm_compute. reflexivity. Qed.

End HistoryFacts.

(** ** Reachable states of the dashboard *)

Module DashboardFacts.
Import Dashboard.

#[local] Arguments Z_toString : simpl never.
#[local] Arguments String.append : simpl never.
#[local] Arguments firstn : simpl never.
#[local] Arguments skipn : simpl never.
#[local] Arguments Nat.min : simpl never.

Ltac open_handlers :=
  unfold handle, dispatch, exec, completion, bind, gets; cbn;
  unfold play_sound_listener, play_settled, volume_onChange, mute_onClick,
    uptime_tick, formatUptime, rerun_connection_effect, elapse,
    play_rejected, prop, JSON_parse.

Lemma Forall_remove_nth {A} (P : A -> Prop) k : forall l,
  Forall P l -> Forall P (firstn k l ++ skipn (S k) l)%list.
Proof.
  induction k as [|k IH]; intros [|x l] H; cbn; auto.
  - now inversion H.
  - inversion H; subst. constructor; auto.
Qed.

Lemma nth_error_Forall {A} (P : A -> Prop) l k x :
  Forall P l -> nth_error l k = Some x -> P x.
Proof.
  intros H E. rewrite Forall_forall in H. apply H.
  eapply nth_error_In; eauto.
Qed.

Section Facts.

Variable apiBase : string.
Variable clock : nat -> Z.

Lemma run_timers_exec due s :
  run_timers due s
  = (Normal tt,
     match due with [] => s | _ => with_toast (fun _ => None) s end).
Proof.
  revert s. induction due as [|d r IH]; intros s; [reflexivity|].
  cbn. unfold bind. cbn. rewrite IH. destruct r; reflexivity.
Qed.

Ltac inv_done El Hc Hp Hh :=
  split; cbn;
  [ rewrite ?El; intros ? [= <-]; cbn;
    try (destruct (Hc _ eq_refl) as (? & ? & ? & ? & ?));
    repeat split; auto; try congruence; try discriminate;
    try (rewrite ?length_app; cbn; lia)
  | auto; try (apply Forall_remove_nth; auto);
    try (apply Forall_app; split; auto; repeat constructor; cbn; auto;
         congruence)
  | rewrite ?length_firstn; cbn; rewrite ?length_firstn; lia ].

Lemma initial_inv : Inv initial.
Proof. split; cbn; [intros ? [=] | constructor | reflexivity]. Qed.

Lemma step_inv s e : Inv s -> Inv (handle apiBase clock s e).
Proof.
  intros [Hc Hp Hh].
  destruct e; open_handlers.
  all: destruct (es s) as [l|] eqn:El; cbn.
  all: rewrite ?run_timers_exec.
  all: crunch.
  all: try (inv_done El Hc Hp Hh; fail).
  all: try (exfalso; eapply (nth_error_Forall _ _ _ _ Hp); eauto; fail).
Qed.

Lemma run_cons e evs s :
  run apiBase clock (e :: evs) s = run apiBase clock evs (handle apiBase clock s e).
Proof. reflexivity. Qed.

Lemma run_inv evs : forall s, Inv s -> Inv (run apiBase clock evs s).
Proof.
  induction evs as [|e r IH]; intros s H; cbn; auto.
  apply IH, step_inv, H.
Qed.

Lemma reachable_inv evs : Inv (run apiBase clock evs initial).
Proof. apply run_inv, initial_inv. Qed.

Lemma step_mounted s e : es s <> None -> es (handle apiBase clock s e) <> None.
Proof.
  intros H. destruct e; open_handlers.
  all: destruct (es s) as [l|] eqn:El; [|congruence]; cbn.
  all: rewrite ?run_timers_exec.
  all: crunch; rewrite ?El; congruence.
Qed.

Lemma run_mounted evs : forall s,
  es s <> None -> es (run apiBase clock evs s) <> None.
Proof.
  induction evs as [|e r IH]; intros s H; cbn; auto.
  apply IH, step_mounted, H.
Qed.

(** After the first commit the connection effect always holds an
    [EventSource]. *)
Lemma mounted evs :
  exists l, es (run apiBase clock (Mount :: evs) initial) = Some l.
Proof.
  destruct (es (run apiBase clock (Mount :: evs) initial)) eqn:E; eauto.
  exfalso. revert E. rewrite run_cons.
  apply run_mounted. unfold handle, exec. cbn. discriminate.
Qed.

Lemma firstn_99_cons {A} (x : A) l :
  firstn 99 (x :: firstn 99 l) = x :: firstn 98 l.
Proof.
  change (firstn 99 (x :: firstn 99 l)) with (x :: firstn 98 (firstn 99 l)).
  now rewrite firstn_firstn.
Qed.

(** C3.  In every state the dashboard reaches, a step leaves the status as
    it is or moves it along one of the listed transitions, and no step
    moves it to [disconnected].  On a transport error the status becomes
    [connecting] and exactly one record, of type "error", is put in front
    of the log. *)
Theorem status_transitions (evs : list Step) (e : Step) :
  let s := run apiBase clock evs initial in
  let s' := handle apiBase clock s e in
  let m := run apiBase clock (Mount :: evs) initial in
  let t := handle apiBase clock m Error in
  (status s' = status s \/ listed_transition (status s) (status s') = true)
  /\ (status s' = disconnected -> status s = disconnected)
  /\ status t = connecting
  /\ events t
     = {| id := Z_toString (clock (reads m)); type := "error";
          timestamp := clock (S (reads m)); data := None;
          description := "Connection lost, attempting to reconnect..." |}
       :: firstn 99 (events m)
  /\ eventCount t = (eventCount m + 1)%nat.
Proof.
  cbn zeta. split; [|split].
  - destruct (reachable_inv evs) as [Hc _ _].
    set (s := run apiBase clock evs initial) in *. clearbody s.
    destruct e; open_handlers.
    all: destruct (es s) as [l|] eqn:El; cbn; auto.
    all: try (destruct (Hc _ eq_refl) as (_ & _ & Hs & _)).
    all: rewrite ?run_timers_exec.
    all: crunch; rewrite ?El; auto.
    all: destruct (status s); cbn; auto; congruence.
  - destruct (reachable_inv evs) as [Hc _ _].
    set (s := run apiBase clock evs initial) in *. clearbody s.
    destruct e; open_handlers.
    all: destruct (es s) as [l|] eqn:El; cbn; auto.
    all: rewrite ?run_timers_exec.
    all: crunch; rewrite ?El; auto; try discriminate.
  - destruct (mounted evs) as [l El].
    set (m := run apiBase clock (Mount :: evs) initial) in *. clearbody m.
    open_handlers. rewrite El. cbn. auto.
Qed.

(** C4.  A sound cue, a payload of the schema, handled while [muted] is
    true makes no call on the platform and leaves no play request pending,
    whatever the volume; it is put in front of the log as a "sound" record,
    and [eventCount] and [soundsPlayed] go up by one. *)
Theorem muted_cue_recorded_not_played (evs : list Step) (payload : JSON) :
  let s := run apiBase clock (Mount :: evs) initial in
  let s' := handle apiBase clock s (PlaySound (Some payload)) in
  muted s = true ->
  conforms_sound_payload payload = true ->
  calls s' = calls s
  /\ plays s' = plays s
  /\ audioRef s' = audioRef s
  /\ events s'
     = {| id := Z_toString (clock (reads s)); type := "sound";
          timestamp := clock (S (reads s)); data := Some payload;
          description := "Playing: " ++ ToString (get payload "filename") |}
       :: firstn 99 (events s)
  /\ eventCount s' = (eventCount s + 1)%nat
  /\ soundsPlayed s' = (soundsPlayed s + 1)%nat.
Proof.
  cbn zeta. intros Hm Hp.
  destruct (mounted evs) as [l El].
  destruct (reachable_inv (Mount :: evs)) as [Hc _ _].
  set (s := run apiBase clock (Mount :: evs) initial) in *. clearbody s.
  destruct (Hc _ El) as (Hlm & _).
  destruct (conforms_fields _ Hp) as (fields & a & b & -> & _ & Hf & _).
  open_handlers. rewrite El. cbn. rewrite Hlm, Hm.
  crunch; try (rewrite Hf in *; discriminate); repeat split; reflexivity.
Qed.

(** C10.  Once mounted, a change of the volume and a click on the mute
    button each close the live [EventSource], put the records
    "Disconnected from server" and "Connecting to server..." in front of
    the log, set the status to [connecting] and open a new [EventSource]
    whose listeners close over the new values.  A slider input that
    repeats the current volume changes nothing. *)
Theorem audio_controls_reconnect (evs : list Step) (v : Q) :
  let s := run apiBase clock (Mount :: evs) initial in
  let sv := handle apiBase clock s (VolumeInput v) in
  let sm := handle apiBase clock s MuteClick in
  exists l, es s = Some l
    /\ (if Qeq_bool v (volume s) then sv = s
        else volume sv = v /\ muted sv = muted s
             /\ reconnected apiBase clock l s sv)
    /\ volume sm = volume s /\ muted sm = negb (muted s)
    /\ reconnected apiBase clock l s sm.
Proof.
  cbn zeta.
  destruct (mounted evs) as [l El].
  destruct (reachable_inv (Mount :: evs)) as [Hc _ _].
  set (s := run apiBase clock (Mount :: evs) initial) in *. clearbody s.
  destruct (Hc _ El) as (_ & _ & _ & _ & Hid).
  exists l. split; [exact El|].
  unfold reconnected. open_handlers. rewrite El. cbn.
  destruct (Qeq_bool v (volume s)); cbn.
  all: rewrite ?El; cbn; rewrite !firstn_99_cons, <- !app_assoc; cbn.
  all: rewrite !length_app; cbn; rewrite !Nat.add_1_r.
  all: repeat split; auto; lia.
Qed.

End Facts.
End DashboardFacts.

(** ** Reachable states of the video overlay *)

Module VideoOverlayFacts.
Import VideoOverlay.

#[local] Arguments String.append : simpl never.
#[local] Arguments skipn : simpl never.

Ltac open_handlers :=
  unfold calls_of, handle, dispatch, exec, completion, bind, gets; cbn;
  unfold play_video_listener, playVideo, onEnded, onError, reset,
    play_settled, elapse, prop, JSON_parse.

Lemma skipn_length_app {A} (l m : list A) :
  skipn (List.length l) (l ++ m) = m.
Proof.
  rewrite skipn_app, skipn_all, Nat.sub_diag. reflexivity.
Qed.


Section Facts.

Variable apiBase : string.

Lemma overlay_run_timers_exec due s :
  run_timers due s
  = (Normal tt,
     match due with [] => s | _ => with_toast (fun _ => None) s end).
Proof.
  revert s. induction due as [|d r IH]; intros s; [reflexivity|].
  cbn. unfold bind. cbn. rewrite IH. destruct r; reflexivity.
Qed.

Lemma overlay_run_cons e evs s :
  run apiBase (e :: evs) s = run apiBase evs (handle apiBase s e).
Proof. reflexivity. Qed.

Lemma overlay_step_inv s e : Inv s -> Inv (handle apiBase s e).
Proof.
  unfold Inv. intros H.
  destruct e; open_handlers.
  all: destruct (es s) eqn:El; cbn.
  all: rewrite ?overlay_run_timers_exec.
  all: crunch; rewrite ?El; auto; try discriminate.
  all: intuition congruence.
Qed.

Lemma overlay_run_inv evs : forall s, Inv s -> Inv (run apiBase evs s).
Proof.
  induction evs as [|e r IH]; intros s H; cbn; auto.
  apply IH, overlay_step_inv, H.
Qed.

Lemma overlay_step_mounted s e : es s = true -> es (handle apiBase s e) = true.
Proof.
  intros El. destruct e; open_handlers.
  all: rewrite ?El; cbn.
  all: rewrite ?overlay_run_timers_exec.
  all: crunch; rewrite ?El; auto.
Qed.

Lemma overlay_run_mounted evs : forall s,
  es s = true -> es (run apiBase evs s) = true.
Proof.
  induction evs as [|e r IH]; intros s H; cbn; auto.
  apply IH, overlay_step_mounted, H.
Qed.

Lemma overlay_mounted evs :
  let m := run apiBase (Mount :: evs) initial in
  es m = true /\ exists el, videoRef m = Some el.
Proof.
  cbn zeta. rewrite overlay_run_cons.
  assert (E : es (run apiBase evs (handle apiBase initial Mount)) = true)
    by (apply overlay_run_mounted; reflexivity).
  split; [exact E|].
  assert (I : Inv (run apiBase evs (handle apiBase initial Mount))).
  { apply overlay_run_inv. unfold Inv. cbn. discriminate. }
  specialize (I E).
  destruct (videoRef (run apiBase evs (handle apiBase initial Mount)));
    [eauto | congruence].
Qed.


End Facts.
End VideoOverlayFacts.

(** ** The uptime clock *)

Module UptimeFacts.
Import Dashboard.

#[local] Arguments two_digits : simpl never.
#[local] Arguments String.append : simpl never.
#[local] Arguments Z.mul : simpl never.
#[local] Arguments Z.div : simpl never.
#[local] Arguments Z.rem : simpl never.

Lemma one_digit n : 0 <= n < 10 -> two_digits n = "0" ++ Z_toString n.
Proof.
  intros H. rewrite <- (Z2Nat.id n) by lia.
  assert (K : (Z.to_nat n < 10)%nat) by lia.
  revert K. generalize (Z.to_nat n) as k. intros k K.
  do 10 (destruct k as [|k]; [reflexivity|]). lia.
Qed.

Lemma digits_of_uint u :
  (String.length (NilEmpty.string_of_uint u) < 2)%nat ->
  (Pos.of_uint u <= 9)%N.
Proof.
  destruct u as [|u|u|u|u|u|u|u|u|u|u]; cbn; try lia.
  all: destruct u; cbn; intros; try lia.
Qed.

Lemma several_digits n :
  10 <= n -> (2 <= String.length (Z_toString n))%nat.
Proof.
  intros H. destruct n as [|p|p]; try lia.
  unfold Z_toString. cbn [Z.to_int NilZero.string_of_int].
  pose proof (DecimalPos.Unsigned.of_to p) as E.
  destruct (Nat.lt_ge_cases
              (String.length (NilZero.string_of_uint (Pos.to_uint p))) 2)
    as [L|L]; [exfalso | exact L].
  destruct (Pos.to_uint p) eqn:U.
  1: discriminate E.
  all: apply digits_of_uint in L; rewrite E in L; lia.
Qed.

Lemma two_digits_zero_padded n : 0 <= n -> two_digits n = zero_padded n.
Proof.
  intros H. unfold zero_padded. destruct (n <? 10) eqn:L.
  - apply one_digit. lia.
  - assert (H2 := several_digits n ltac:(lia)).
    unfold two_digits, padStart.
    replace (2 - String.length (Z_toString n))%nat with 0%nat by lia.
    reflexivity.
Qed.

Lemma zero_padded_length n :
  0 <= n < 100 -> String.length (zero_padded n) = 2%nat.
Proof.
  intros H.
  assert (E : exists k : nat, (k < 100)%nat /\ n = Z.of_nat k).
  { exists (Z.to_nat n). lia. }
  destruct E as (k & Hk & ->). clear H.
  do 100 (destruct k as [|k]; [reflexivity|]). lia.
Qed.

Section Facts.

Variable apiBase : string.
Variable clock : nat -> Z.

Lemma formatUptime_connected s c :
  connectedAt s = Some c ->
  c <= clock (reads s) ->
  completion (formatUptime clock) s = Normal (hh_mm_ss (clock (reads s) - c)).
Proof.
  intros E H. unfold completion, formatUptime, bind, gets. cbn. rewrite E.
  cbn. unfold hh_mm_ss. cbv zeta.
  set (d := clock (reads s) - c). assert (0 <= d) by lia.
  rewrite !Z.rem_mod_nonneg by lia.
  replace (d / (1000 * 60 * 60)) with (d / 1000 / 3600)
    by (Z.div_mod_to_equations; lia).
  replace (d mod (1000 * 60 * 60) / (1000 * 60)) with (d / 1000 / 60 mod 60)
    by (Z.div_mod_to_equations; lia).
  replace (d mod (1000 * 60) / 1000) with ((d / 1000) mod 60)
    by (Z.div_mod_to_equations; lia).
  rewrite !two_digits_zero_padded; auto.
  all: Z.div_mod_to_equations; lia.
Qed.

(** C9 (amended).  On a tick of the interval at which the wall clock has
    not been set back behind [connectedAt], the uptime shown becomes
    "00:00:00" when [connectedAt] is not set; otherwise it is made anew
    from the wall-clock difference between this tick's [Date.now()] and
    [connectedAt]: its hours, minutes and seconds, zero-padded and joined
    by colons.  The previous value of [uptime] plays no part. *)
Theorem uptime_on_tick (evs : list Step) :
  let s := run apiBase clock (Mount :: evs) initial in
  let now := clock (reads s) in
  (forall c, connectedAt s = Some c -> c <= now) ->
  uptime (handle apiBase clock s IntervalTick)
  = match connectedAt s with
    | None => "00:00:00"
    | Some c => hh_mm_ss (now - c)
    end.
Proof.
  cbn zeta. intros H.
  destruct (DashboardFacts.mounted apiBase clock evs) as [l El].
  set (s := run apiBase clock (Mount :: evs) initial) in *. clearbody s.
  unfold handle, dispatch, exec, bind, gets. cbn. rewrite El.
  unfold uptime_tick, bind.
  destruct (connectedAt s) as [c|] eqn:E.
  - pose proof (formatUptime_connected s c E (H c eq_refl)) as F.
    unfold completion in F.
    destruct (formatUptime clock s) as [r s1]. cbn in F. subst r.
    reflexivity.
  - unfold formatUptime, bind, gets. cbn. rewrite E. reflexivity.
Qed.

End Facts.

Example uptime_example :
  let clock n := 1700000000000 + 1234567 * Z.of_nat n in
  uptime (run "http://localhost:8787" clock [Mount; Open; IntervalTick] initial)
  = "01:01:43".
Proof. vm_compute. reflexivity. Qed.

(** C9, as stated, fails.  The wall clock is set back by an hour and a
    millisecond after the connection opened.  At the tick [connectedAt] is
    set and [Date.now()] reads less: the difference is negative, and the
    uptime shown is "-2:-1:-1", whose fields are not the zero-padded
    hours, minutes and seconds of an elapsed time. *)
Lemma uptime_clock_set_back :
  let clock n := if (n <? 5)%nat then 1700003600001 else 1700000000000 in
  let s := run "http://localhost:8787" clock [Mount; Open] initial in
  connectedAt s = Some 1700003600001
  /\ clock (reads s) = 1700000000000
  /\ uptime (handle "http://localhost:8787" clock s IntervalTick) = "-2:-1:-1".
Proof. vm_compute. repeat split. Qed.

End UptimeFacts.

(** ** The toast and its timer *)

Module TimerFacts.

Lemma filter_none {A} (f : A -> bool) (l : list A) :
  (forall x, In x l -> f x = false) -> filter f l = [].
Proof.
  induction l as [|x r IH]; intros H; [reflexivity|]. cbn.
  rewrite (H x) by now left. apply IH. intros y Hy. apply H. now right.
Qed.

Section Deadlines.

Variables (T t' : Z) (ts : list Z).
Hypothesis not_before : Forall (fun d => T <= d) ts.

Lemma pending_not_before : Forall (fun d => T <= d) (pending t' ts).
Proof.
  rewrite Forall_forall in not_before |- *. intros d Hd.
  apply filter_In in Hd. now apply not_before.
Qed.

Lemma pending_keeps : t' < T -> In T ts -> In T (pending t' ts).
Proof.
  intros H HT. apply filter_In. split; [exact HT|].
  destruct (T <=? t') eqn:E; [lia | reflexivity].
Qed.

Lemma none_due : t' < T -> due t' ts = [].
Proof.
  intros H. apply filter_none. intros d Hd.
  rewrite Forall_forall in not_before. apply not_before in Hd.
  apply Z.leb_gt. lia.
Qed.

Lemma some_due : T <= t' -> In T ts -> due t' ts <> [].
Proof.
  intros H HT E.
  assert (I : In T (due t' ts)).
  { apply filter_In. split; [exact HT|]. apply Z.leb_le. exact H. }
  rewrite E in I. exact I.
Qed.

End Deadlines.

End TimerFacts.

Module DashboardToast.
Import Dashboard DashboardFacts.

#[local] Arguments Z_toString : simpl never.
#[local] Arguments String.append : simpl never.
#[local] Arguments firstn : simpl never.
#[local] Arguments skipn : simpl never.
#[local] Arguments due : simpl never.
#[local] Arguments pending : simpl never.

Section Facts.

Variable apiBase : string.
Variable clock : nat -> Z.

Lemma quiet_step_frame s e :
  toasting e = false ->
  (forall ms, e <> Elapse ms) ->
  toast (handle apiBase clock s e) = toast s
  /\ timers (handle apiBase clock s e) = timers s
  /\ time (handle apiBase clock s e) = time s.
Proof.
  intros Hq Hne. destruct e; try (exfalso; eapply Hne; reflexivity).
  all: open_handlers.
  all: destruct (es s) as [l|] eqn:El; cbn; auto.
  all: unfold toasting, qualifying, get in Hq.
  all: crunch; auto; try congruence.
Qed.

Lemma elapse_step T shown s ms :
  toast_inv T shown s -> toast_inv T shown (handle apiBase clock s (Elapse ms)).
Proof.
  intros (H1 & H3 & H4).
  unfold handle, dispatch, exec, bind, gets, elapse. cbn.
  rewrite run_timers_exec. cbn.
  set (t' := time s + Z.max 0 ms).
  assert (Hl : time s <= t') by (unfold t'; lia).
  pose proof (TimerFacts.pending_not_before T t' (timers s) H1) as P1.
  pose proof (TimerFacts.pending_keeps T t' (timers s)) as P3.
  pose proof (TimerFacts.none_due T t' (timers s) H1) as P4.
  pose proof (TimerFacts.some_due T t' (timers s)) as P5.
  unfold toast_inv.
  destruct (due t' (timers s)) eqn:D; cbn; fold t';
    (split; [exact P1 | split; [intros Ht; apply P3; auto; apply H3; lia|]]).
  - rewrite H4.
    destruct (t' <? T) eqn:A; destruct (time s <? T) eqn:B; try reflexivity.
    + apply Z.ltb_lt in A. apply Z.ltb_ge in B. lia.
    + apply Z.ltb_ge in A. apply Z.ltb_lt in B.
      exfalso. apply P5; [lia | apply H3; lia | reflexivity].
  - destruct (t' <? T) eqn:A; [|reflexivity].
    apply Z.ltb_lt in A. discriminate (P4 A).
Qed.

Lemma quiet_step T shown s e :
  toasting e = false ->
  toast_inv T shown s -> toast_inv T shown (handle apiBase clock s e).
Proof.
  intros Hq HI.
  assert (C : (exists ms, e = Elapse ms) \/ forall ms, e <> Elapse ms).
  { destruct e; try (right; discriminate). left; eauto. }
  destruct C as [[ms ->] | Hne]; [now apply elapse_step|].
  destruct (quiet_step_frame s e Hq Hne) as (E1 & E2 & E3).
  unfold toast_inv. rewrite E1, E2, E3. exact HI.
Qed.

Lemma quiet_run T shown more : forall s,
  forallb (fun e => negb (toasting e)) more = true ->
  toast_inv T shown s -> toast_inv T shown (run apiBase clock more s).
Proof.
  induction more as [|e r IH]; intros s Hq HI; cbn; auto.
  cbn in Hq. apply andb_prop in Hq. destruct Hq as [Hq Hr].
  apply IH; auto. apply quiet_step; auto.
  now destruct (toasting e).
Qed.

Lemma cue_sets_toast s l payload :
  es s = Some l ->
  qualifying payload = true ->
  converts (get payload "src") = true ->
  converts (get payload "filename") = true ->
  let s1 := handle apiBase clock s (PlaySound (Some payload)) in
  toast s1 = toast_of payload
  /\ timers s1 = (timers s ++ [time s + 5000])%list
  /\ time s1 = time s.
Proof.
  intros El Hq Cs Cf. cbn zeta. unfold toast_of.
  open_handlers. rewrite El. cbn.
  unfold qualifying, get in Hq.
  destruct payload; cbn in Hq; try discriminate.
  destruct (l_muted l); crunch; try congruence; auto.
Qed.

End Facts.
End DashboardToast.

Module VideoToast.
Import VideoOverlay VideoOverlayFacts.

#[local] Arguments String.append : simpl never.
#[local] Arguments skipn : simpl never.
#[local] Arguments due : simpl never.
#[local] Arguments pending : simpl never.

Section Facts.

Variable apiBase : string.

Lemma overlay_quiet_step_frame s e :
  toasting e = false ->
  (forall ms, e <> Elapse ms) ->
  toast (handle apiBase s e) = toast s
  /\ timers (handle apiBase s e) = timers s
  /\ time (handle apiBase s e) = time s.
Proof.
  intros Hq Hne. destruct e; try (exfalso; eapply Hne; reflexivity).
  all: open_handlers.
  all: destruct (es s) eqn:El; cbn; auto.
  all: unfold toasting, qualifying, get in Hq.
  all: crunch; auto; try congruence.
Qed.

Lemma overlay_elapse_step T shown s ms :
  toast_inv T shown s -> toast_inv T shown (handle apiBase s (Elapse ms)).
Proof.
  intros (H1 & H3 & H4).
  unfold handle, dispatch, exec, bind, gets, elapse. cbn.
  rewrite overlay_run_timers_exec. cbn.
  set (t' := time s + Z.max 0 ms).
  assert (Hl : time s <= t') by (unfold t'; lia).
  pose proof (TimerFacts.pending_not_before T t' (timers s) H1) as P1.
  pose proof (TimerFacts.pending_keeps T t' (timers s)) as P3.
  pose proof (TimerFacts.none_due T t' (timers s) H1) as P4.
  pose proof (TimerFacts.some_due T t' (timers s)) as P5.
  unfold toast_inv.
  destruct (due t' (timers s)) eqn:D; cbn; fold t';
    (split; [exact P1 | split; [intros Ht; apply P3; auto; apply H3; lia|]]).
  - rewrite H4.
    destruct (t' <? T) eqn:A; destruct (time s <? T) eqn:B; try reflexivity.
    + apply Z.ltb_lt in A. apply Z.ltb_ge in B. lia.
    + apply Z.ltb_ge in A. apply Z.ltb_lt in B.
      exfalso. apply P5; [lia | apply H3; lia | reflexivity].
  - destruct (t' <? T) eqn:A; [|reflexivity].
    apply Z.ltb_lt in A. discriminate (P4 A).
Qed.

Lemma overlay_quiet_step T shown s e :
  toasting e = false ->
  toast_inv T shown s -> toast_inv T shown (handle apiBase s e).
Proof.
  intros Hq HI.
  assert (C : (exists ms, e = Elapse ms) \/ forall ms, e <> Elapse ms).
  { destruct e; try (right; discriminate). left; eauto. }
  destruct C as [[ms ->] | Hne]; [now apply overlay_elapse_step|].
  destruct (overlay_quiet_step_frame s e Hq Hne) as (E1 & E2 & E3).
  unfold toast_inv. rewrite E1, E2, E3. exact HI.
Qed.

Lemma overlay_quiet_run T shown more : forall s,
  forallb (fun e => negb (toasting e)) more = true ->
  toast_inv T shown s -> toast_inv T shown (run apiBase more s).
Proof.
  induction more as [|e r IH]; intros s Hq HI; cbn; auto.
  cbn in Hq. apply andb_prop in Hq. destruct Hq as [Hq Hr].
  apply IH; auto. apply overlay_quiet_step; auto.
  now destruct (toasting e).
Qed.

Lemma overlay_cue_sets_toast s el payload :
  es s = true ->
  videoRef s = Some el ->
  qualifying payload = true ->
  converts (get payload "src") = true ->
  let s1 := handle apiBase s (PlayVideo (Some payload)) in
  toast s1 = toast_of payload
  /\ timers s1 = (timers s ++ [time s + 5000])%list
  /\ time s1 = time s.
Proof.
  intros El R Hq Cs. cbn zeta. unfold toast_of.
  open_handlers. rewrite El. cbn.
  unfold qualifying, get in Hq.
  destruct payload; cbn in Hq; try discriminate.
  crunch; try congruence; auto.
Qed.

End Facts.
End VideoToast.

Module ToastFacts.

#[local] Arguments due : simpl never.
#[local] Arguments pending : simpl never.

Section Facts.

Variable apiBase : string.
Variable clock : nat -> Z.

Lemma dashboard_toast (s : Dashboard.State) l payload more :
  let s1 := Dashboard.handle apiBase clock s (Dashboard.PlaySound (Some payload)) in
  let s2 := Dashboard.run apiBase clock more s1 in
  let T := Dashboard.time s + 5000 in
  Dashboard.es s = Some l ->
  qualifying payload = true ->
  converts (get payload "src") = true ->
  converts (get payload "filename") = true ->
  Forall (fun d => T <= d) (Dashboard.timers s) ->
  forallb (fun e => negb (Dashboard.toasting e)) more = true ->
  Dashboard.toast s1 = toast_of payload
  /\ Dashboard.timers s1 = (Dashboard.timers s ++ [T])%list
  /\ Dashboard.toast s2
     = (if Dashboard.time s2 <? T then toast_of payload else None).
Proof.
  cbn zeta. intros El Hq Cs Cf Ht Hm.
  destruct (DashboardToast.cue_sets_toast apiBase clock s l payload El Hq Cs Cf)
    as (E1 & E2 & E3).
  split; [exact E1|]. split; [exact E2|].
  apply (DashboardToast.quiet_run apiBase clock (Dashboard.time s + 5000)
           (toast_of payload) more); auto.
  unfold Dashboard.toast_inv. rewrite E1, E2, E3.
  split; [|split].
  - apply Forall_app. split; auto. constructor; [lia | constructor].
  - intros _. apply in_or_app. right. now left.
  - replace (Dashboard.time s <? Dashboard.time s + 5000) with true;
      [reflexivity|]. symmetry. apply Z.ltb_lt. lia.
Qed.

Lemma overlay_toast (v : VideoOverlay.State) el payload more :
  let v1 := VideoOverlay.handle apiBase v (VideoOverlay.PlayVideo (Some payload)) in
  let v2 := VideoOverlay.run apiBase more v1 in
  let T := VideoOverlay.time v + 5000 in
  VideoOverlay.es v = true ->
  VideoOverlay.videoRef v = Some el ->
  qualifying payload = true ->
  converts (get payload "src") = true ->
  Forall (fun d => T <= d) (VideoOverlay.timers v) ->
  forallb (fun e => negb (VideoOverlay.toasting e)) more = true ->
  VideoOverlay.toast v1 = toast_of payload
  /\ VideoOverlay.timers v1 = (VideoOverlay.timers v ++ [T])%list
  /\ VideoOverlay.toast v2
     = (if VideoOverlay.time v2 <? T then toast_of payload else None).
Proof.
  cbn zeta. intros El R Hq Cs Ht Hm.
  destruct (VideoToast.overlay_cue_sets_toast apiBase v el payload El R Hq Cs)
    as (E1 & E2 & E3).
  split; [exact E1|]. split; [exact E2|].
  apply (VideoToast.overlay_quiet_run apiBase (VideoOverlay.time v + 5000)
           (toast_of payload) more); auto.
  unfold VideoOverlay.toast_inv. rewrite E1, E2, E3.
  split; [|split].
  - apply Forall_app. split; auto. constructor; [lia | constructor].
  - intros _. apply in_or_app. right. now left.
  - replace (VideoOverlay.time v <? VideoOverlay.time v + 5000) with true;
      [reflexivity|]. symmetry. apply Z.ltb_lt. lia.
Qed.

Lemma dashboard_elapse_time (s : Dashboard.State) ms :
  Dashboard.time (Dashboard.handle apiBase clock s (Dashboard.Elapse ms))
  = Dashboard.time s + Z.max 0 ms.
Proof.
  unfold Dashboard.handle, Dashboard.dispatch, exec, bind, gets,
    Dashboard.elapse. cbn.
  rewrite DashboardFacts.run_timers_exec. cbn.
  now destruct (due _ (Dashboard.timers s)).
Qed.

Lemma overlay_elapse_time (v : VideoOverlay.State) ms :
  VideoOverlay.time (VideoOverlay.handle apiBase v (VideoOverlay.Elapse ms))
  = VideoOverlay.time v + Z.max 0 ms.
Proof.
  unfold VideoOverlay.handle, VideoOverlay.dispatch, exec, bind, gets,
    VideoOverlay.elapse. cbn.
  rewrite VideoOverlayFacts.overlay_run_timers_exec. cbn.
  now destruct (due _ (VideoOverlay.timers v)).
Qed.

(** C7 (amended).  A cue of the schema, its fields strings, with
    [username] and [rewardName] both non-empty, handled at time [t] when no
    clearance is pending that falls due before [t + 5000], sets the toast
    at once, a toast that renders, and schedules its clearance at
    [t + 5000].  Whatever happens next short of another cue with truthy
    names, the toast is on show at every time before [t + 5000] and gone
    at every time from then on; so it is on show at [t + 4999] and gone at
    [t + 5000].  This holds for the dashboard's sound cues and for the
    overlay's video cues. *)
Theorem toast_lifecycle
  (evs more : list Dashboard.Step) (vevs vmore : list VideoOverlay.Step)
  (payload vpayload : JSON) :
  let s := Dashboard.run apiBase clock (Dashboard.Mount :: evs) Dashboard.initial in
  let s1 := Dashboard.handle apiBase clock s (Dashboard.PlaySound (Some payload)) in
  let s2 := Dashboard.run apiBase clock more s1 in
  let T := Dashboard.time s + 5000 in
  let v := VideoOverlay.run apiBase (VideoOverlay.Mount :: vevs) VideoOverlay.initial in
  let v1 := VideoOverlay.handle apiBase v (VideoOverlay.PlayVideo (Some vpayload)) in
  let v2 := VideoOverlay.run apiBase vmore v1 in
  let U := VideoOverlay.time v + 5000 in
  conforms_sound_payload payload = true ->
  qualifying payload = true ->
  conforms_video_payload vpayload = true ->
  qualifying vpayload = true ->
  forallb (fun d => T <=? d) (Dashboard.timers s) = true ->
  forallb (fun d => U <=? d) (VideoOverlay.timers v) = true ->
  forallb (fun e => negb (Dashboard.toasting e)) more = true ->
  forallb (fun e => negb (VideoOverlay.toasting e)) vmore = true ->
  (Dashboard.toast s1 = toast_of payload
   /\ Dashboard.renders s1 = true
   /\ Dashboard.timers s1 = (Dashboard.timers s ++ [T])%list
   /\ Dashboard.toast s2
      = (if Dashboard.time s2 <? T then toast_of payload else None)
   /\ Dashboard.toast (Dashboard.handle apiBase clock s1 (Dashboard.Elapse 4999))
      = toast_of payload
   /\ Dashboard.toast (Dashboard.handle apiBase clock s1 (Dashboard.Elapse 5000))
      = None)
  /\ (VideoOverlay.toast v1 = toast_of vpayload
      /\ VideoOverlay.renders v1 = true
      /\ VideoOverlay.timers v1 = (VideoOverlay.timers v ++ [U])%list
      /\ VideoOverlay.toast v2
         = (if VideoOverlay.time v2 <? U then toast_of vpayload else None)
      /\ VideoOverlay.toast (VideoOverlay.handle apiBase v1 (VideoOverlay.Elapse 4999))
         = toast_of vpayload
      /\ VideoOverlay.toast (VideoOverlay.handle apiBase v1 (VideoOverlay.Elapse 5000))
         = None).
Proof.
  cbn zeta. intros Hc Hq Hvc Hvq Ht Hu Hm Hvm.
  destruct (conforms_converts _ Hc) as (Cs & Cf & Cr).
  destruct (conforms_video_converts _ Hvc) as (Vs & Vr).
  assert (Ft : Forall (fun d => Dashboard.time
             (Dashboard.run apiBase clock (Dashboard.Mount :: evs) Dashboard.initial)
             + 5000 <= d)
            (Dashboard.timers
               (Dashboard.run apiBase clock (Dashboard.Mount :: evs) Dashboard.initial))).
  { apply Forall_forall. intros d Hd.
    rewrite forallb_forall in Ht. apply Z.leb_le. now apply Ht. }
  assert (Fu : Forall (fun d => VideoOverlay.time
             (VideoOverlay.run apiBase (VideoOverlay.Mount :: vevs) VideoOverlay.initial)
             + 5000 <= d)
            (VideoOverlay.timers
               (VideoOverlay.run apiBase (VideoOverlay.Mount :: vevs) VideoOverlay.initial))).
  { apply Forall_forall. intros d Hd.
    rewrite forallb_forall in Hu. apply Z.leb_le. now apply Hu. }
  destruct (DashboardFacts.mounted apiBase clock evs) as [l El].
  destruct (VideoOverlayFacts.overlay_mounted apiBase vevs) as [Ev [el R]].
  set (s := Dashboard.run apiBase clock (Dashboard.Mount :: evs) Dashboard.initial) in *.
  set (v := VideoOverlay.run apiBase (VideoOverlay.Mount :: vevs) VideoOverlay.initial) in *.
  clearbody s v.
  split.
  - destruct (dashboard_toast s l payload more El Hq Cs Cf Ft Hm)
      as (A & B & C).
    destruct (dashboard_toast s l payload [Dashboard.Elapse 4999]
                El Hq Cs Cf Ft eq_refl) as (_ & _ & C1).
    destruct (dashboard_toast s l payload [Dashboard.Elapse 5000]
                El Hq Cs Cf Ft eq_refl) as (_ & _ & C2).
    destruct (DashboardToast.cue_sets_toast apiBase clock s l payload
                El Hq Cs Cf) as (_ & _ & E3).
    cbn [Dashboard.run fold_left] in C1, C2.
    rewrite dashboard_elapse_time, E3 in C1, C2.
    repeat split; auto.
    + unfold Dashboard.renders. now rewrite A.
    + rewrite C1. replace (_ <? _) with true; [reflexivity|].
      symmetry. apply Z.ltb_lt. lia.
    + rewrite C2. replace (_ <? _) with false; [reflexivity|].
      symmetry. apply Z.ltb_ge. lia.
  - destruct (overlay_toast v el vpayload vmore Ev R Hvq Vs Fu Hvm)
      as (A & B & C).
    destruct (overlay_toast v el vpayload [VideoOverlay.Elapse 4999]
                Ev R Hvq Vs Fu eq_refl) as (_ & _ & C1).
    destruct (overlay_toast v el vpayload [VideoOverlay.Elapse 5000]
                Ev R Hvq Vs Fu eq_refl) as (_ & _ & C2).
    destruct (VideoToast.overlay_cue_sets_toast apiBase v el vpayload
                Ev R Hvq Vs) as (_ & _ & E3).
    cbn [VideoOverlay.run fold_left] in C1, C2.
    rewrite overlay_elapse_time, E3 in C1, C2.
    repeat split; auto.
    + unfold VideoOverlay.renders. now rewrite A.
    + rewrite C1. replace (_ <? _) with true; [reflexivity|].
      symmetry. apply Z.ltb_lt. lia.
    + rewrite C2. replace (_ <? _) with false; [reflexivity|].
      symmetry. apply Z.ltb_ge. lia.
Qed.

End Facts.

(** C7, as stated, fails.  A cue for alice at time 0 and a cue for bob at
    time 1000: bob's toast is cleared at time 5000 by alice's timer,
    3999 ms into its 4999.  And a cue whose [username] is present but
    empty sets no toast. *)
Lemma toast_cut_short :
  let api := "http://localhost:8787" in
  let cue user :=
    Dashboard.PlaySound
      (Some (cue_payload "/sounds/horn.mp3" "horn.mp3" user "confetti")) in
  let s := Dashboard.run api a_clock
             [Dashboard.Mount; Dashboard.Open; cue "alice"; Dashboard.Elapse 1000]
             Dashboard.initial in
  let s1 := Dashboard.handle api a_clock s (cue "bob") in
  let s0 := Dashboard.run api a_clock [Dashboard.Mount; Dashboard.Open]
              Dashboard.initial in
  Dashboard.time s1 = 1000
  /\ Dashboard.toast s1
     = Some {| username := Some (JStr "bob");
               rewardName := Some (JStr "confetti") |}
  /\ Dashboard.toast (Dashboard.handle api a_clock s1 (Dashboard.Elapse 4000))
     = None
  /\ Dashboard.toast (Dashboard.handle api a_clock s1 (Dashboard.Elapse 4999))
     = None
  /\ Dashboard.toast (Dashboard.handle api a_clock s0 (cue "")) = None
  /\ Dashboard.timers (Dashboard.handle api a_clock s0 (cue "")) = [].
Proof. vm_compute. repeat split. Qed.

(** C7 at a cue for alice on a dashboard with no timer pending. *)
Lemma toast_lifecycle_witness :
  let api := "http://localhost:8787" in
  let payload := cue_payload "/sounds/horn.mp3" "horn.mp3" "alice" "confetti" in
  let s := Dashboard.run api a_clock [Dashboard.Mount; Dashboard.Open]
             Dashboard.initial in
  let s1 := Dashboard.handle api a_clock s (Dashboard.PlaySound (Some payload)) in
  Dashboard.toast (Dashboard.handle api a_clock s1 (Dashboard.Elapse 4999))
  = toast_of payload
  /\ Dashboard.toast (Dashboard.handle api a_clock s1 (Dashboard.Elapse 5000))
     = None.
Proof.
  cbn zeta.
  pose proof (toast_lifecycle "http://localhost:8787" a_clock
    [Dashboard.Open] [Dashboard.Error; Dashboard.Elapse 300]
    [] [VideoOverlay.Ended]
    (cue_payload "/sounds/horn.mp3" "horn.mp3" "alice" "confetti")
    (JObj [("src", JStr "/videos/clip.mp4"); ("username", JStr "alice");
           ("rewardName", JStr "confetti")])
    eq_refl eq_refl eq_refl eq_refl eq_refl eq_refl eq_refl eq_refl) as H.
  cbn zeta in H. destruct H as [(_ & _ & _ & _ & A & B) _].
  split; [exact A | exact B].
Defined.

End ToastFacts.

(** ** Malformed payloads and playback failures *)

Module PlaybackFacts.
Import Dashboard DashboardFacts.

#[local] Arguments Z_toString : simpl never.
#[local] Arguments String.append : simpl never.
#[local] Arguments firstn : simpl never.
#[local] Arguments skipn : simpl never.
#[local] Arguments due : simpl never.
#[local] Arguments pending : simpl never.

Section Facts.

Variable apiBase : string.
Variable clock : nat -> Z.

(** No step of the dashboard throws past its handler. *)
Lemma dispatch_normal s e :
  Inv s -> completion (dispatch apiBase clock e) s = Normal tt.
Proof.
  intros [_ Hp _].
  destruct e; open_handlers.
  all: destruct (es s) as [l|] eqn:El; cbn; auto.
  all: rewrite ?run_timers_exec.
  all: crunch; auto.
  all: match goal with
       | H : nth_error _ _ = Some _ |- _ =>
           destruct (nth_error_Forall _ _ _ _ Hp H) as [Hn Hv]
       end.
  all: cbn in Hv; congruence.
Qed.

(** No step of the overlay throws past its handler. *)
Lemma overlay_dispatch_normal (v : VideoOverlay.State) e :
  completion (VideoOverlay.dispatch apiBase e) v = Normal tt.
Proof.
  destruct e; VideoOverlayFacts.open_handlers.
  all: destruct (VideoOverlay.es v) eqn:El; cbn; auto.
  all: rewrite ?VideoOverlayFacts.overlay_run_timers_exec.
  all: crunch; auto.
Qed.

(** C5 (amended).  A [play-sound] message whose data is not JSON, or is
    the JSON [null], or whose [filename] does not convert to a string, is
    caught in the listener: the step completes normally, exactly one
    "error" record "Failed to parse sound event" is put in front of the
    log, and nothing is played or counted as a sound.  Where it is the
    [src] that does not convert, on a dashboard that is not muted, the
    failure is caught as well and nothing is played: the "error" record
    comes on top of the "sound" record made before it.  A [play-video]
    message that is not JSON or is [null] is caught and dropped: the
    overlay is left as it was, without any record; one whose [src] does
    not convert is caught after the reset, without a [play] and without a
    record.  Every other JSON value whose toast, if it sets one, renders
    is taken as a cue, whatever its shape, and recorded as a sound. *)
Theorem unparsable_payload_caught
  (evs : list Step) (vevs : list VideoOverlay.Step) (payload : JSON) :
  let s := run apiBase clock (Mount :: evs) initial in
  let v := VideoOverlay.run apiBase (VideoOverlay.Mount :: vevs)
             VideoOverlay.initial in
  let c := handle apiBase clock s (PlaySound (Some payload)) in
  let vc := VideoOverlay.handle apiBase v (VideoOverlay.PlayVideo (Some payload)) in
  let sound_record :=
    ("sound", "Playing: " ++ ToString (get payload "filename"), Some payload) in
  Forall
    (fun d =>
       completion (dispatch apiBase clock (PlaySound d)) s = Normal tt
       /\ parse_failure_recorded clock s (handle apiBase clock s (PlaySound d))
       /\ completion (VideoOverlay.dispatch apiBase (VideoOverlay.PlayVideo d)) v
          = Normal tt
       /\ VideoOverlay.handle apiBase v (VideoOverlay.PlayVideo d) = v)
    [None; Some JNull]
  /\ completion (dispatch apiBase clock (PlaySound (Some payload))) s = Normal tt
  /\ completion (VideoOverlay.dispatch apiBase (VideoOverlay.PlayVideo (Some payload))) v
     = Normal tt
  /\ (converts (get payload "filename") = false ->
      parse_failure_recorded clock s c)
  /\ (payload <> JNull ->
      converts (get payload "filename") = true ->
      converts (get payload "src") = false ->
      muted s = false ->
      map shown (events c)
      = ("error", "Failed to parse sound event", None)
        :: sound_record :: map shown (firstn 98 (events s))
      /\ (calls c, plays c, toast c, timers c)
         = (calls s, plays s, toast s, timers s))
  /\ (payload <> JNull ->
      converts (get payload "src") = false ->
      VideoOverlay.calls_of apiBase v (VideoOverlay.PlayVideo (Some payload))
      = [VideoOverlay.Pause; VideoOverlay.RemoveAttribute "src";
         VideoOverlay.Load]
      /\ (VideoOverlay.plays vc, VideoOverlay.visible vc, VideoOverlay.toast vc,
          VideoOverlay.timers vc)
         = (VideoOverlay.plays v, VideoOverlay.visible v, VideoOverlay.toast v,
            VideoOverlay.timers v)
      /\ history (VideoOverlayClient vc) = [])
  /\ (payload <> JNull ->
      converts (get payload "filename") = true ->
      muted s = true \/ converts (get payload "src") = true ->
      (qualifying payload = true -> toast_renders (toast_of payload) = true) ->
      newest c = Some sound_record
      /\ soundsPlayed c = (soundsPlayed s + 1)%nat
      /\ (qualifying payload = true -> renders c = true)).
Proof.
  cbn zeta.
  pose proof (reachable_inv apiBase clock (Mount :: evs)) as I.
  pose proof (dispatch_normal _ (PlaySound (Some payload)) I) as N.
  destruct (mounted apiBase clock evs) as [l El].
  destruct (VideoOverlayFacts.overlay_mounted apiBase vevs) as [Ev [el R]].
  destruct I as [Hc _ _].
  set (s := run apiBase clock (Mount :: evs) initial) in *.
  set (v := VideoOverlay.run apiBase (VideoOverlay.Mount :: vevs)
              VideoOverlay.initial) in *.
  clearbody s v.
  destruct (Hc _ El) as (Hlm & _).
  split; [|split; [exact N|split; [apply overlay_dispatch_normal|]]].
  - repeat constructor.
    all: try (unfold parse_failure_recorded; open_handlers; rewrite El;
              cbn; repeat split; reflexivity).
    all: try (VideoOverlayFacts.open_handlers; rewrite Ev; reflexivity).
    all: destruct v; cbn in Ev; subst;
      VideoOverlayFacts.open_handlers; reflexivity.
  - split; [|split; [|split]].
    + intros Cf. destruct payload; try discriminate.
      unfold parse_failure_recorded. open_handlers. rewrite El. cbn.
      cbn in Cf. crunch; try congruence. repeat split; reflexivity.
    + intros Hn Cf Cs Hm. rewrite <- Hlm in Hm.
      destruct payload; try congruence; try discriminate.
      open_handlers. rewrite El, Hm. cbn. cbn in Cf, Cs.
      crunch; try congruence.
      all: rewrite firstn_99_cons; cbn.
      all: split; reflexivity.
    + intros Hn Cs. destruct payload; try congruence; try discriminate.
      VideoOverlayFacts.open_handlers. rewrite Ev. cbn.
      cbn in Cs. crunch; try congruence.
      rewrite <- !app_assoc. cbn.
      rewrite VideoOverlayFacts.skipn_length_app. auto.
    + intros Hn Cf Hs Hr. rewrite <- Hlm in Hs.
      unfold newest, renders, toast_of in *.
      destruct payload; try congruence.
      all: open_handlers; rewrite El; cbn; cbn in Cf.
      all: destruct Hs as [Hs|Hs]; [rewrite Hs|cbn in Hs].
      all: unfold qualifying, get in *.
      all: crunch; try congruence; split; auto; split; auto; try discriminate.
Qed.

(** C6 (amended).  The rejection of a pending audio [play()] is handled in
    the promise's catch: the step completes normally, exactly one "error"
    record "Failed to play: <filename>" is put in front of the log, the
    promise is no longer pending and nothing else changes.  No step of the
    dashboard or of the overlay throws past its handler, and a cue that
    follows the failure makes the calls and the record it would have made
    without it.  The rejection of a video [play()] is swallowed: it
    changes nothing but the count of pending promises and leaves no
    record. *)
Theorem playback_failure_caught
  (evs : list Step) (vevs : list VideoOverlay.Step) (k : nat) (payload : JSON)
  (e : Step) (ve : VideoOverlay.Step) (d : MessageData) :
  let s := run apiBase clock (Mount :: evs) initial in
  let s' := handle apiBase clock s (PlaySettled k false) in
  let v := VideoOverlay.run apiBase (VideoOverlay.Mount :: vevs)
             VideoOverlay.initial in
  let v' := VideoOverlay.handle apiBase v (VideoOverlay.PlaySettled false) in
  nth_error (plays s) k = Some payload ->
  (completion (dispatch apiBase clock e) s = Normal tt
   /\ completion (dispatch apiBase clock e) s' = Normal tt
   /\ completion (VideoOverlay.dispatch apiBase ve) v = Normal tt
   /\ completion (VideoOverlay.dispatch apiBase ve) v' = Normal tt)
  /\ (events s'
      = {| id := Z_toString (clock (reads s)); type := "error";
           timestamp := clock (S (reads s)); data := None;
           description := "Failed to play: " ++ ToString (get payload "filename") |}
        :: firstn 99 (events s)
      /\ eventCount s' = (eventCount s + 1)%nat
      /\ plays s' = (firstn k (plays s) ++ skipn (S k) (plays s))%list
      /\ (status s', volume s', muted s', connectedAt s', soundsPlayed s')
         = (status s, volume s, muted s, connectedAt s, soundsPlayed s)
      /\ (toast s', uptime s', audioRef s', es s', timers s', time s', calls s')
         = (toast s, uptime s, audioRef s, es s, timers s, time s, calls s))
  /\ (let c := handle apiBase clock s (PlaySound d) in
      let c' := handle apiBase clock s' (PlaySound d) in
      newest c' = newest c
      /\ (calls c', audioRef c', toast c', soundsPlayed c', status c')
         = (calls c, audioRef c, toast c, soundsPlayed c, status c))
  /\ (v' = VideoOverlay.with_plays Nat.pred v
      /\ history (VideoOverlayClient v') = []
      /\ (let c := VideoOverlay.handle apiBase v (VideoOverlay.PlayVideo d) in
          let c' := VideoOverlay.handle apiBase v' (VideoOverlay.PlayVideo d) in
          (VideoOverlay.calls c', VideoOverlay.visible c', VideoOverlay.toast c',
           VideoOverlay.videoRef c', VideoOverlay.timers c')
          = (VideoOverlay.calls c, VideoOverlay.visible c, VideoOverlay.toast c,
             VideoOverlay.videoRef c, VideoOverlay.timers c))).
Proof.
  cbn zeta. intros Hk.
  pose proof (reachable_inv apiBase clock (Mount :: evs)) as I.
  pose proof (dispatch_normal _ e I) as N1.
  pose proof (dispatch_normal _ e
                (step_inv apiBase clock _ (PlaySettled k false) I)) as N2.
  destruct (mounted apiBase clock evs) as [l El].
  destruct I as [_ Hp _].
  set (s := run apiBase clock (Mount :: evs) initial) in *.
  set (v := VideoOverlay.run apiBase (VideoOverlay.Mount :: vevs)
              VideoOverlay.initial) in *.
  clearbody s v.
  destruct (nth_error_Forall _ _ _ _ Hp Hk) as [Hn Hv].
  split; [|split; [|split]].
  - repeat split; auto; apply overlay_dispatch_normal.
  - open_handlers. rewrite Hk. cbn.
    destruct payload; try congruence; cbn in Hv |- *.
    all: unfold interpolate; rewrite ?Hv; cbn; repeat split; reflexivity.
  - open_handlers. rewrite Hk. cbn.
    destruct payload; try congruence; cbn in Hv |- *.
    all: unfold interpolate; rewrite ?Hv; cbn; rewrite El; cbn.
    all: unfold newest.
    all: destruct d as [[| | | | |]|]; cbn.
    all: destruct (l_muted l); crunch; split; reflexivity.
  - repeat split.
    VideoOverlayFacts.open_handlers.
    destruct (VideoOverlay.es v); cbn; [|reflexivity].
    destruct d as [[| | | | |]|]; cbn; try reflexivity.
    all: crunch; reflexivity.
Qed.

End Facts.
End PlaybackFacts.

(** ** Concrete runs *)

Module Scenarios.
Import Dashboard.

(** C8 fails on the code.  A click on the mute button records
    "Disconnected from server" and "Connecting to server..." in one
    commit; when [Date.now()] reads the same millisecond for both, the two
    records carry the same id, and the later one is not greater. *)
Lemma ids_collide_within_a_millisecond :
  let s := run api coarse_clock [Mount; MuteClick] initial in
  map id (events s) = ["1700000005000"; "1700000005000"; "1700000000000"]
  /\ map description (events s)
     = ["Connecting to server..."; "Disconnected from server";
        "Connecting to server..."]
  /\ ~ NoDup (map id (events s)).
Proof.
  cbn zeta.
  assert (E : map id (events (run api coarse_clock [Mount; MuteClick] initial))
              = ["1700000005000"; "1700000005000"; "1700000000000"])
    by (vm_compute; reflexivity).
  split; [exact E|]. split; [vm_compute; reflexivity|].
  rewrite E. intros N. inversion N as [|x r Hin _]; subst.
  apply Hin. now left.
Qed.

(** C5, as stated, fails.  The payload [{}] violates the schema, yet the
    unmuted dashboard records it as a sound and asks the audio element to
    play [apiBase + "undefined"]: no "error" record, one play request.
    And a [play-video] message that is not JSON leaves no record at all. *)
Lemma schema_violation_is_played :
  let s := run api a_clock [Mount; Open] initial in
  let s' := handle api a_clock s (PlaySound (Some (JObj []))) in
  let v := VideoOverlay.run api [VideoOverlay.Mount] VideoOverlay.initial in
  let v' := VideoOverlay.handle api v (VideoOverlay.PlayVideo None) in
  conforms_sound_payload (JObj []) = false
  /\ map type (events s') = ["sound"; "connection"; "system"]
  /\ map description (events s')
     = ["Playing: undefined"; "Connected to server"; "Connecting to server..."]
  /\ calls s' = (calls s ++ [Audio_play "http://localhost:8787undefined" 0.7])%list
  /\ history (VideoOverlayClient v') = [].
Proof. vm_compute. repeat split. Qed.

(** C5 at a cue whose [filename] is an object that does not convert, and
    at one whose [src] is. *)
Lemma unparsable_payload_witness :
  let s := run api a_clock [Mount; Open] initial in
  let no_filename :=
    JObj [("src", JStr "/sounds/horn.mp3"); ("filename", no_string)] in
  let no_src := JObj [("src", no_string); ("filename", JStr "horn.mp3")] in
  let a := handle api a_clock s (PlaySound (Some no_filename)) in
  let b := handle api a_clock s (PlaySound (Some no_src)) in
  converts (get no_filename "filename") = false
  /\ converts (get no_src "src") = false
  /\ muted s = false
  /\ newest a = Some ("error", "Failed to parse sound event", None)
  /\ (soundsPlayed a, calls a) = (soundsPlayed s, calls s)
  /\ newest b = Some ("error", "Failed to parse sound event", None)
  /\ calls b = calls s.
Proof.
  cbn zeta.
  destruct (PlaybackFacts.unparsable_payload_caught api a_clock [Open] []
              (JObj [("src", JStr "/sounds/horn.mp3"); ("filename", no_string)]))
    as (_ & _ & _ & F & _).
  destruct (F eq_refl) as (E & _ & S & C & _).
  destruct (PlaybackFacts.unparsable_payload_caught api a_clock [Open] []
              (JObj [("src", no_string); ("filename", JStr "horn.mp3")]))
    as (_ & _ & _ & _ & G & _).
  assert (N : JObj [("src", no_string); ("filename", JStr "horn.mp3")] <> JNull)
    by discriminate.
  destruct (G N eq_refl eq_refl eq_refl) as (Eb & Cb).
  split; [reflexivity|]. split; [reflexivity|]. split; [reflexivity|].
  split; [unfold newest; rewrite E; reflexivity|].
  split; [rewrite S, C; reflexivity|].
  split; [vm_compute; reflexivity|].
  congruence.
Defined.

(** C6, as stated, fails.  The overlay plays a video and the [play()]
    promise is rejected: no record is made of it, and the overlay stays as
    the cue left it, visible. *)
Lemma video_failure_leaves_no_record :
  let cue := VideoOverlay.PlayVideo (Some (JObj [("src", JStr "/videos/clip.mp4")])) in
  let v := VideoOverlay.run api [VideoOverlay.Mount; cue] VideoOverlay.initial in
  let v' := VideoOverlay.handle api v (VideoOverlay.PlaySettled false) in
  VideoOverlay.plays v = 1%nat
  /\ history (VideoOverlayClient v') = []
  /\ VideoOverlay.visible v' = true
  /\ VideoOverlay.calls v' = VideoOverlay.calls v.
Proof. vm_compute. repeat split. Qed.

(** C4 at a cue that arrives after the mute button was clicked. *)
Lemma muted_cue_witness :
  let s := run api a_clock [Mount; Open; MuteClick] initial in
  let s' := handle api a_clock s (PlaySound (Some horn)) in
  muted s = true
  /\ conforms_sound_payload horn = true
  /\ calls s' = calls s
  /\ soundsPlayed s' = (soundsPlayed s + 1)%nat.
Proof.
  cbn zeta.
  destruct (DashboardFacts.muted_cue_recorded_not_played api a_clock
              [Open; MuteClick] horn eq_refl eq_refl)
    as (A & _ & _ & _ & _ & B).
  split; [reflexivity|]. split; [reflexivity|]. split; [exact A | exact B].
Defined.

(** C6 at the rejection of the one pending [play()] of a cue. *)
Lemma playback_failure_witness :
  let s := run api a_clock [Mount; Open; PlaySound (Some horn)] initial in
  let s' := handle api a_clock s (PlaySettled 0 false) in
  nth_error (plays s) 0 = Some horn
  /\ option_map description (hd_error (events s'))
     = Some "Failed to play: horn.mp3"
  /\ calls s' = calls s.
Proof.
  cbn zeta.
  pose proof (PlaybackFacts.playback_failure_caught api a_clock
                [Open; PlaySound (Some horn)] [] 0 horn Error
                VideoOverlay.Ended None eq_refl) as H.
  cbn zeta in H. destruct H as (_ & (A & _ & _ & _ & B) & _).
  split; [reflexivity|]. split.
  - rewrite A. reflexivity.
  - congruence.
Defined.

(** C9 at a tick 3703701 ms of wall clock after the connection opened. *)
Lemma uptime_witness :
  let clock n := 1700000000000 + 1234567 * Z.of_nat n in
  let s := run api clock [Mount; Open] initial in
  connectedAt s = Some (clock 2%nat)
  /\ uptime (handle api clock s IntervalTick) = "01:01:43".
Proof.
  cbn zeta. split; [reflexivity|].
  rewrite (UptimeFacts.uptime_on_tick api
             (fun n => 1700000000000 + 1234567 * Z.of_nat n) [Open]).
  - vm_compute. reflexivity.
  - cbn zeta. intros c E. vm_compute in E. injection E as <-.
    vm_compute. discriminate.
Defined.

(** C10 at a slider input of 0.5 on a connected dashboard at volume 0.7. *)
Lemma audio_controls_witness :
  let s := run api a_clock [Mount; Open] initial in
  let sv := handle api a_clock s (VolumeInput 0.5) in
  Qeq_bool 0.5 (volume s) = false
  /\ status s = connected
  /\ status sv = connecting
  /\ calls sv
     = (calls s ++ [EventSource_close 0;
                    New_EventSource "http://localhost:8787/events"])%list.
Proof.
  cbn zeta.
  destruct (DashboardFacts.audio_controls_reconnect api a_clock [Open] 0.5)
    as (l & El & H & _).
  change (Qeq_bool 0.5 (volume (run api a_clock [Mount; Open] initial)))
    with false in H.
  destruct H as (_ & _ & A & B & _).
  split; [reflexivity|]. split; [reflexivity|]. split; [exact B|].
  rewrite A. vm_compute in El. injection El as <-. reflexivity.
Defined.

End Scenarios.

(** ** More on the history log *)

Module HistoryOrder.
Import Dashboard.

#[local] Arguments firstn : simpl never.

Lemma firstn_app_cut {A} (x : A) (b : list A) (n : nat) : forall a m,
  (m <= List.length a + 1 + n)%nat ->
  firstn m (a ++ x :: firstn n b) = firstn m (a ++ x :: b).
Proof.
  induction a as [|y a IH]; intros [|m] H; try reflexivity.
  - cbn [app]. rewrite !firstn_cons, firstn_firstn.
    cbn in H. now replace (Nat.min m n) with m by lia.
  - cbn [app]. rewrite !firstn_cons. f_equal. apply IH. cbn in H. lia.
Qed.

Section Facts.

Variable clock : nat -> Z.

Lemma record_all_shown l : forall s,
  (List.length (events s) <= 100)%nat ->
  map shown (events (exec (record_all clock l) s))
  = firstn 100 (rev l ++ map shown (events s)).
Proof.
  induction l as [|[[ty de] da] r IH]; intros s Hs.
  - cbn [rev app]. rewrite firstn_all2; [reflexivity|].
    now rewrite length_map.
  - change (exec (record_all clock ((ty, de, da) :: r)) s)
      with (exec (record_all clock r) (exec (addEvent clock ty de da) s)).
    rewrite IH.
    + rewrite HistoryFacts.addEvent_events. cbn [map rev].
      change (shown _) with (ty, de, da) at 1.
      rewrite <- firstn_map, <- app_assoc. cbn [app].
      apply firstn_app_cut. lia.
    + rewrite HistoryFacts.addEvent_length. lia.
Qed.

(** X1.  The log holds the 100 most recent records, newest first: after
    the calls [l] of [addEvent] on the empty history, what the log shows
    is the first 100 of [l] reversed. *)
Theorem history_newest_first (l : list (string * string * JSValue)) :
  map shown (events (exec (record_all clock l) initial)) = firstn 100 (rev l).
Proof.
  rewrite record_all_shown by (cbn; lia). cbn [events initial map].
  now rewrite app_nil_r.
Qed.

(** X2.  [clearHistory] starts the history over, from any state: the
    records made after it are counted and kept as on a new dashboard, and
    [soundsPlayed] is 0 until the next sound. *)
Theorem clear_starts_over (s : State) (l : list (string * string * JSValue)) :
  let c := exec (record_all clock l) (exec clearHistory s) in
  map shown (events c) = firstn 100 (rev l)
  /\ List.length (events c) = Nat.min (List.length l) 100
  /\ eventCount c = List.length l.
Proof.
  cbn zeta. split.
  - rewrite record_all_shown by (cbn; lia). cbn [map].
    change (events (exec clearHistory s)) with (@nil EventRecord).
    cbn [map]. now rewrite app_nil_r.
  - destruct (HistoryFacts.record_all_from clock l (exec clearHistory s) eq_refl)
      as [Hl Hc].
    rewrite Hl, Hc. cbn. split; reflexivity.
Qed.

End Facts.
End HistoryOrder.

(** ** What the dashboard keeps at every step *)

Module DashboardKeeps.
Import Dashboard.

#[local] Arguments Z_toString : simpl never.
#[local] Arguments String.append : simpl never.
#[local] Arguments firstn : simpl never.
#[local] Arguments skipn : simpl never.
#[local] Arguments due : simpl never.
#[local] Arguments pending : simpl never.

Lemma Forall_firstn_keep {A} (P : A -> Prop) n : forall l,
  Forall P l -> Forall P (firstn n l).
Proof.
  induction n as [|n IH]; intros [|x l] H; try constructor.
  - now inversion H.
  - apply IH. now inversion H.
Qed.

Lemma pairs_firstn_keep {A} (R : A -> A -> Prop) n : forall l,
  ForallOrdPairs R l -> ForallOrdPairs R (firstn n l).
Proof.
  induction n as [|n IH]; intros [|x l] H; try constructor.
  - apply Forall_firstn_keep. now inversion H.
  - apply IH. now inversion H.
Qed.

Lemma Z_toString_inj a b : Z_toString a = Z_toString b -> a = b.
Proof.
  assert (N : forall n, Z.to_int n <> Decimal.Pos Decimal.Nil
                        /\ Z.to_int n <> Decimal.Neg Decimal.Nil).
  { intros [|p|p]; cbn; split; try discriminate; intros [= E].
    all: pose proof (DecimalPos.Unsigned.of_to p) as O; rewrite E in O.
    all: discriminate O. }
  unfold Z_toString. intros E.
  destruct (N a) as [A1 A2]. destruct (N b) as [B1 B2].
  pose proof (NilZero.isi _ A1 A2) as Ia.
  pose proof (NilZero.isi _ B1 B2) as Ib.
  rewrite E in Ia. rewrite Ia in Ib. injection Ib as Ib.
  now apply DecimalZ.to_int_inj.
Qed.

Section Facts.

Variable apiBase : string.
Variable clock : nat -> Z.

(** A property that holds at the start and that every step keeps holds
    after every run. *)
Lemma after_every_run (P : State -> Prop) :
  P initial ->
  (forall s e, P s -> P (handle apiBase clock s e)) ->
  forall evs, P (run apiBase clock evs initial).
Proof.
  intros H0 Hs evs. unfold run.
  assert (G : forall s, P s -> P (fold_left (handle apiBase clock) evs s)).
  { induction evs as [|e r IH]; intros s H; cbn; auto. }
  now apply G.
Qed.

Ltac each_step s e El :=
  destruct e; DashboardFacts.open_handlers;
  destruct (es s) as [?l|] eqn:El; cbn;
  rewrite ?DashboardFacts.run_timers_exec; crunch.

Lemma counters_step s e :
  (soundsPlayed s <= eventCount s)%nat ->
  (soundsPlayed (handle apiBase clock s e)
   <= eventCount (handle apiBase clock s e))%nat.
Proof. intros H. each_step s e El; lia. Qed.

Lemma types_step s e :
  Forall (fun r => In (type r) record_types) (events s) ->
  Forall (fun r => In (type r) record_types) (events (handle apiBase clock s e)).
Proof.
  intros H. each_step s e El.
  all: repeat first
         [ assumption | apply Forall_nil | apply Forall_firstn_keep
         | apply Forall_cons; [cbn; auto 10|] ].
Qed.

Lemma connectedAt_step s e :
  (status s = connected -> connectedAt s <> None) ->
  status (handle apiBase clock s e) = connected ->
  connectedAt (handle apiBase clock s e) <> None.
Proof. intros H. each_step s e El; intuition congruence. Qed.

Lemma connectedAt_kept s e :
  connectedAt s <> None -> connectedAt (handle apiBase clock s e) <> None.
Proof. intros H. each_step s e El; intuition congruence. Qed.

(** X3.  After every run of the dashboard the log has at most 100 records
    and as many as [eventCount] up to 100, [soundsPlayed] is at most
    [eventCount], and every record has one of the types "system",
    "connection", "sound" and "error": there is never a "video" record. *)
Theorem counters_and_types (evs : list Step) :
  let s := run apiBase clock evs initial in
  (List.length (events s) <= 100)%nat
  /\ List.length (events s) = Nat.min (eventCount s) 100
  /\ (soundsPlayed s <= eventCount s)%nat
  /\ Forall (fun r => In (type r) record_types) (events s)
  /\ ~ In "video" (map type (events s)).
Proof.
  cbn zeta.
  destruct (DashboardFacts.reachable_inv apiBase clock evs) as [_ _ Hh].
  assert (Hc : (soundsPlayed (run apiBase clock evs initial)
                <= eventCount (run apiBase clock evs initial))%nat).
  { apply (after_every_run (fun s => (soundsPlayed s <= eventCount s)%nat));
      [cbn; lia | apply counters_step]. }
  assert (Ht : Forall (fun r => In (type r) record_types)
                 (events (run apiBase clock evs initial))).
  { apply (after_every_run
             (fun s => Forall (fun r => In (type r) record_types) (events s)));
      [constructor | apply types_step]. }
  repeat split; auto; try lia.
  intros Hv. apply in_map_iff in Hv. destruct Hv as (r & Er & Hr).
  rewrite Forall_forall in Ht. specialize (Ht r Hr). rewrite Er in Ht.
  cbn in Ht. repeat (destruct Ht as [Ht|Ht]; [discriminate Ht|]). exact Ht.
Qed.

(** X4.  Whenever the status is [connected] the connection has a start
    time, and a start time once set is never taken away: a transport
    error moves the status to [connecting] and leaves [connectedAt] as it
    is, so the uptime goes on counting from the last connection.  Every
    [open] and every ["connected"] event sets the start time anew, to the
    clock read of that moment. *)
Theorem connectedAt_is_kept (evs : list Step) (e : Step) :
  let s := run apiBase clock evs initial in
  let m := run apiBase clock (Mount :: evs) initial in
  (status s = connected -> connectedAt s <> None)
  /\ (connectedAt s <> None -> connectedAt (handle apiBase clock s e) <> None)
  /\ connectedAt (handle apiBase clock s Error) = connectedAt s
  /\ connectedAt (handle apiBase clock m Open) = Some (clock (reads m))
  /\ connectedAt (handle apiBase clock m Connected) = Some (clock (reads m)).
Proof.
  cbn zeta. split; [|split; [|split]].
  - apply (after_every_run
             (fun s => status s = connected -> connectedAt s <> None));
      [discriminate | apply connectedAt_step].
  - apply connectedAt_kept.
  - DashboardFacts.open_handlers.
    now destruct (es (run apiBase clock evs initial)).
  - destruct (DashboardFacts.mounted apiBase clock evs) as [l El].
    set (m := run apiBase clock (Mount :: evs) initial) in *. clearbody m.
    DashboardFacts.open_handlers. rewrite El. cbn. split; reflexivity.
Qed.

Lemma sources_step s e :
  fold_left source_step (calls s) ([], 0%nat)
  = (match es s with Some l => [es_id l] | None => [] end,
     List.length (calls s)) ->
  fold_left source_step (calls (handle apiBase clock s e)) ([], 0%nat)
  = (match es (handle apiBase clock s e) with
     | Some l => [es_id l]
     | None => []
     end,
     List.length (calls (handle apiBase clock s e))).
Proof.
  intros H. each_step s e El; rewrite ?El in *; auto.
  all: try discriminate El.
  all: try (injection El as El; subst); auto.
  all: rewrite ?fold_left_app, H; cbn; rewrite ?Nat.eqb_refl; cbn.
  all: rewrite ?length_app; cbn; rewrite ?Nat.add_1_r; reflexivity.
Qed.

(** The prefixes of a log that a step has extended by the calls [made]
    are the prefixes of the log, and the log followed by a prefix of
    [made]. *)
Lemma prefixes_app {A} (P : list A -> Prop) (l made : list A) :
  (forall n, P (firstn n l)) ->
  (forall k, P (l ++ firstn k made)%list) ->
  forall n, P (firstn n (l ++ made)%list).
Proof.
  intros Hl Hm n. rewrite firstn_app.
  destruct (Nat.le_gt_cases n (List.length l)) as [L|L].
  - replace (n - List.length l)%nat with 0%nat by lia.
    rewrite firstn_O, app_nil_r. apply Hl.
  - rewrite (firstn_all2 l) by lia. apply Hm.
Qed.

Lemma never_two_step s e :
  fold_left source_step (calls s) ([], 0%nat)
  = (match es s with Some l => [es_id l] | None => [] end,
     List.length (calls s)) ->
  (forall n, (List.length (open_sources (firstn n (calls s))) <= 1)%nat) ->
  forall n,
    (List.length (open_sources (firstn n (calls (handle apiBase clock s e))))
     <= 1)%nat.
Proof.
  intros H K. each_step s e El; rewrite ?El in *; try exact K.
  all: try discriminate El.
  all: try (injection El as El; subst).
  all: rewrite <- ?app_assoc; cbn [app].
  all: apply (prefixes_app
                (fun c => (List.length (fst (fold_left source_step c ([], 0%nat)))
                           <= 1)%nat));
    [exact K | intros k].
  all: rewrite fold_left_app, H.
  all: destruct k as [|[|[|k]]];
    rewrite ?firstn_cons, ?firstn_O, ?firstn_nil; cbn;
    rewrite ?Nat.eqb_refl; cbn; lia.
Qed.

(** X5.  The dashboard never holds two connections.  After every run the
    [EventSource]s it has opened and not closed are exactly the one its
    listeners hang on, and none before the first commit.  The same holds
    within a step: at no point of the log of calls, cut anywhere, are two
    sources open, for a re-run of the connection effect closes the live
    source before it opens the next. *)
Theorem one_open_source (evs : list Step) (v : Q) :
  let s := run apiBase clock evs initial in
  let rerun l :=
    (calls s ++ [EventSource_close (es_id l);
                 New_EventSource (apiBase ++ "/events")])%list in
  open_sources (calls s)
  = match es s with Some l => [es_id l] | None => [] end
  /\ (forall n, (List.length (open_sources (firstn n (calls s))) <= 1)%nat)
  /\ (forall l, es s = Some l ->
        calls (handle apiBase clock s MuteClick) = rerun l
        /\ calls (handle apiBase clock s (VolumeInput v))
           = if Qeq_bool v (volume s) then calls s else rerun l).
Proof.
  cbn zeta.
  assert (R : fold_left source_step (calls (run apiBase clock evs initial))
                ([], 0%nat)
              = (match es (run apiBase clock evs initial) with
                 | Some l => [es_id l]
                 | None => []
                 end,
                 List.length (calls (run apiBase clock evs initial)))
              /\ forall n,
                   (List.length
                      (open_sources
                         (firstn n (calls (run apiBase clock evs initial))))
                    <= 1)%nat).
  { apply (after_every_run
      (fun s => fold_left source_step (calls s) ([], 0%nat)
                = (match es s with Some l => [es_id l] | None => [] end,
                   List.length (calls s))
                /\ forall n,
                     (List.length (open_sources (firstn n (calls s)))
                      <= 1)%nat)).
    - split; [reflexivity|]. intros n. cbn [calls initial].
      rewrite firstn_nil. cbn. lia.
    - intros s e [H K].
      split; [now apply sources_step | now apply never_two_step]. }
  destruct R as [H K].
  split; [unfold open_sources; now rewrite H|]. split; [exact K|].
  intros l El. DashboardFacts.open_handlers. rewrite El. cbn.
  destruct (Qeq_bool v (volume _)); cbn; rewrite ?El; cbn.
  all: rewrite <- ?app_assoc; split; reflexivity.
Qed.

End Facts.
End DashboardKeeps.

(** ** The ids of the records under a clock that ticks *)

Module TickingClock.
Import Dashboard.

#[local] Arguments Z_toString : simpl never.
#[local] Arguments String.append : simpl never.
#[local] Arguments firstn : simpl never.
#[local] Arguments skipn : simpl never.
#[local] Arguments due : simpl never.
#[local] Arguments pending : simpl never.

Section Facts.

Variable apiBase : string.
Variable clock : nat -> Z.

(** Every read of the wall clock returns a later millisecond than the
    reads before it. *)
Hypothesis ticking : forall a b, (a < b)%nat -> clock a < clock b.

Lemma stamped_nil n : stamped clock n [].
Proof. split; constructor. Qed.

Lemma stamped_read n l : stamped clock n l -> stamped clock (S n) l.
Proof.
  intros [F P]. split; [|exact P].
  eapply Forall_impl; [|exact F].
  intros r (k & Hk & E). exists k. split; [lia | exact E].
Qed.

Lemma stamped_add n l ty de da :
  stamped clock n l ->
  stamped clock (S (S n))
    ({| id := Z_toString (clock n); type := ty; timestamp := clock (S n);
        data := da; description := de |} :: firstn 99 l).
Proof.
  intros [F P]. split.
  - constructor.
    + exists n. cbn. repeat split. lia.
    + apply DashboardKeeps.Forall_firstn_keep.
      eapply Forall_impl; [|exact F].
      intros r (k & Hk & E). exists k. split; [lia | exact E].
  - constructor.
    + apply DashboardKeeps.Forall_firstn_keep.
      eapply Forall_impl; [|exact F].
      intros r (k & Hk & _ & E). cbn. rewrite E. apply ticking. lia.
    + now apply DashboardKeeps.pairs_firstn_keep.
Qed.

Lemma stamped_step s e :
  stamped clock (reads s) (events s) ->
  stamped clock (reads (handle apiBase clock s e))
    (events (handle apiBase clock s e)).
Proof.
  intros H. destruct e; DashboardFacts.open_handlers.
  all: destruct (es s) as [l|] eqn:El; cbn.
  all: rewrite ?DashboardFacts.run_timers_exec; crunch.
  all: repeat first
         [ assumption | apply stamped_nil | apply stamped_add
         | apply stamped_read ].
Qed.

Lemma stamped_ids_differ n l :
  stamped clock n l ->
  NoDup (map id l)
  /\ ForallOrdPairs (fun a b => timestamp b < timestamp a) l.
Proof.
  intros [F P]. split; [|exact P].
  induction P as [|a l Ha P IH]; cbn; constructor.
  - intros Hin. apply in_map_iff in Hin. destruct Hin as (b & Eb & Hb).
    inversion F as [|? ? (ka & _ & Ia & Ta) Fl]; subst.
    rewrite Forall_forall in Fl, Ha.
    destruct (Fl b Hb) as (kb & _ & Ib & Tb).
    specialize (Ha b Hb). cbn in Ha.
    rewrite Ia, Ib in Eb. apply DashboardKeeps.Z_toString_inj in Eb.
    assert (ka = kb).
    { destruct (Nat.lt_trichotomy ka kb) as [L|[E|L]]; auto.
      all: apply ticking in L; lia. }
    subst kb. lia.
  - apply IH. now inversion F.
Qed.

(** X6.  Under a wall clock that gives every read a later millisecond, no
    two records of the log share an id, and along the log, newest first,
    the timestamps go strictly down. *)
Theorem ids_differ_when_the_clock_ticks (evs : list Step) :
  let s := run apiBase clock evs initial in
  NoDup (map id (events s))
  /\ ForallOrdPairs (fun a b => timestamp b < timestamp a) (events s).
Proof.
  cbn zeta. apply (stamped_ids_differ (reads (run apiBase clock evs initial))).
  apply (DashboardKeeps.after_every_run apiBase clock
           (fun s => stamped clock (reads s) (events s)));
    [apply stamped_nil | apply stamped_step].
Qed.

End Facts.

(** X6 at a clock that moves one millisecond with every read. *)
Lemma ids_differ_witness :
  NoDup (map id (events (run api a_clock [Mount; MuteClick] initial))).
Proof.
  apply (ids_differ_when_the_clock_ticks api a_clock).
  intros a b H. unfold a_clock. lia.
Defined.

End TickingClock.

(** ** The volume and the audio element *)

Module AudioFacts.
Import Dashboard.

#[local] Arguments Z_toString : simpl never.
#[local] Arguments String.append : simpl never.
#[local] Arguments firstn : simpl never.
#[local] Arguments skipn : simpl never.

Section Facts.

Variable apiBase : string.
Variable clock : nat -> Z.

(** What an unmuted cue asks of the audio element. *)
Lemma unmuted_cue s l payload :
  es s = Some l ->
  l_muted l = false ->
  payload <> JNull ->
  converts (get payload "filename") = true ->
  converts (get payload "src") = true ->
  let s' := handle apiBase clock s (PlaySound (Some payload)) in
  let src := apiBase ++ ToString (get payload "src") in
  calls s' = (calls s ++ [Audio_play src (l_volume l)])%list
  /\ audioRef s' = Some {| audio_volume := l_volume l; audio_src := src |}
  /\ plays s' = (plays s ++ [payload])%list.
Proof.
  intros El Hm Hp Cf Cs. cbn zeta.
  DashboardFacts.open_handlers. rewrite El. cbn. rewrite Hm.
  destruct payload; try congruence; cbn in Cf, Cs.
  all: crunch; try congruence; repeat split; reflexivity.
Qed.

Lemma controls_leave_the_element s :
  audioRef (handle apiBase clock s MuteClick) = audioRef s
  /\ forall v,
       audioRef (handle apiBase clock s (VolumeInput v)) = audioRef s
       /\ muted (handle apiBase clock s (VolumeInput v)) = muted s
       /\ (volume (handle apiBase clock s (VolumeInput v)) == v
           \/ es s = None)%Q.
Proof.
  split; [|intros v].
  - DashboardFacts.open_handlers.
    destruct (es s) as [l|] eqn:El; cbn; rewrite ?El; reflexivity.
  - DashboardFacts.open_handlers.
    destruct (es s) as [l|] eqn:El; cbn; auto.
    destruct (Qeq_bool v (volume s)) eqn:E; cbn; rewrite ?El; cbn.
    + repeat split; auto. left. apply Qeq_sym. now apply Qeq_bool_iff.
    + repeat split; auto. left. reflexivity.
Qed.

(** X7.  An unmuted cue is played at the volume the slider shows: once
    mounted, a cue of the schema, its fields strings, handled while [muted]
    is false, sets the element's volume to the current [volume] and its
    source to [apiBase] followed by the payload's [src], asks it once to
    play and leaves that one promise pending. *)
Theorem unmuted_cue_plays_at_volume (evs : list Step) (payload : JSON) :
  let s := run apiBase clock (Mount :: evs) initial in
  let s' := handle apiBase clock s (PlaySound (Some payload)) in
  let src := apiBase ++ ToString (get payload "src") in
  muted s = false ->
  conforms_sound_payload payload = true ->
  calls s' = (calls s ++ [Audio_play src (volume s)])%list
  /\ audioRef s' = Some {| audio_volume := volume s; audio_src := src |}
  /\ plays s' = (plays s ++ [payload])%list.
Proof.
  cbn zeta. intros Hm Hp.
  destruct (conforms_converts _ Hp) as (Cs & Cf & _).
  assert (Hn : payload <> JNull) by (intros ->; discriminate).
  destruct (DashboardFacts.mounted apiBase clock evs) as [l El].
  destruct (DashboardFacts.reachable_inv apiBase clock (Mount :: evs))
    as [Hc _ _].
  destruct (Hc _ El) as (Lm & Lv & _).
  rewrite <- Lv. apply unmuted_cue; auto. congruence.
Qed.

(** X8.  The audio controls do not reach a sound that is playing: a
    slider input and a click on the mute button, muting or unmuting, leave
    the audio element as it is and start no playback.  A new volume takes
    effect with the next cue: on a dashboard that is not muted, a cue of
    the schema that follows the slider input is played at it. *)
Theorem volume_reaches_next_cue (evs : list Step) (v : Q) (payload : JSON) :
  let s := run apiBase clock (Mount :: evs) initial in
  let sv := handle apiBase clock s (VolumeInput v) in
  let sm := handle apiBase clock s MuteClick in
  let src := apiBase ++ ToString (get payload "src") in
  (audioRef sv = audioRef s
   /\ audioRef sm = audioRef s
   /\ plays sv = plays s
   /\ plays sm = plays s
   /\ (volume sv == v)%Q)
  /\ (muted s = false ->
      conforms_sound_payload payload = true ->
      calls (handle apiBase clock sv (PlaySound (Some payload)))
      = (calls sv ++ [Audio_play src (volume sv)])%list).
Proof.
  cbn zeta.
  destruct (DashboardFacts.mounted apiBase clock evs) as [l El].
  pose proof (DashboardFacts.reachable_inv apiBase clock (Mount :: evs)) as I.
  set (s := run apiBase clock (Mount :: evs) initial) in *. clearbody s.
  destruct (controls_leave_the_element s) as [Am Av].
  destruct (Av v) as (A1 & A2 & A3).
  destruct A3 as [A3|A3]; [|congruence].
  pose proof (DashboardFacts.step_inv apiBase clock s (VolumeInput v) I) as Iv.
  assert (Ev : es (handle apiBase clock s (VolumeInput v)) <> None).
  { apply DashboardFacts.step_mounted. congruence. }
  destruct (es (handle apiBase clock s (VolumeInput v))) as [lv|] eqn:Elv;
    [|congruence].
  destruct Iv as [Hc _ _]. destruct (Hc _ Elv) as (Lm & Lv & _).
  assert (Ps : plays (handle apiBase clock s (VolumeInput v)) = plays s
               /\ plays (handle apiBase clock s MuteClick) = plays s).
  { DashboardFacts.open_handlers. rewrite El. cbn.
    destruct (Qeq_bool v (volume s)); cbn; rewrite ?El; cbn; split; reflexivity. }
  destruct Ps as [P1 P2].
  split; [repeat split; auto|].
  intros Hm Hp.
  destruct (conforms_converts _ Hp) as (Cs & Cf & _).
  assert (Hn : payload <> JNull) by (intros ->; discriminate).
  rewrite <- Lv.
  apply (unmuted_cue (handle apiBase clock s (VolumeInput v)) lv payload);
    auto. congruence.
Qed.

End Facts.

(** X7 at a cue on a connected dashboard at its first volume. *)
Lemma unmuted_cue_witness :
  let s := run api a_clock [Mount; Open] initial in
  let s' := handle api a_clock s (PlaySound (Some horn)) in
  muted s = false
  /\ conforms_sound_payload horn = true
  /\ calls s'
     = (calls s
        ++ [Audio_play "http://localhost:8787/sounds/horn.mp3" 0.7])%list.
Proof.
  cbn zeta. split; [reflexivity|]. split; [reflexivity|].
  destruct (unmuted_cue_plays_at_volume api a_clock [Open] horn
              eq_refl eq_refl) as (A & _).
  rewrite A. reflexivity.
Defined.

(** X8 at a slider moved to 0.25 before the cue. *)
Lemma volume_reaches_witness :
  let s := run api a_clock [Mount; Open] initial in
  let sv := handle api a_clock s (VolumeInput 0.25) in
  muted s = false
  /\ conforms_sound_payload horn = true
  /\ audioRef sv = audioRef s
  /\ exists l,
       calls (handle api a_clock sv (PlaySound (Some horn)))
       = (l ++ [Audio_play "http://localhost:8787/sounds/horn.mp3" 0.25])%list.
Proof.
  cbn zeta. split; [reflexivity|]. split; [reflexivity|].
  destruct (volume_reaches_next_cue api a_clock [Open] 0.25 horn)
    as ((A & _) & B).
  split; [exact A|]. eexists. rewrite (B eq_refl eq_refl). reflexivity.
Defined.

End AudioFacts.

(** ** A toast does not stay *)

Module ToastGoes.

#[local] Arguments Z_toString : simpl never.
#[local] Arguments String.append : simpl never.
#[local] Arguments firstn : simpl never.
#[local] Arguments skipn : simpl never.
#[local] Arguments due : simpl never.
#[local] Arguments pending : simpl never.

Lemma none_due_all_pending t ts : due t ts = [] -> pending t ts = ts.
Proof.
  unfold due, pending. induction ts as [|d r IH]; cbn; [reflexivity|].
  destruct (d <=? t); cbn; [discriminate|]. intros E. f_equal. now apply IH.
Qed.

Lemma pending_bound (B t : Z) ts :
  Forall (fun d => d <= B) ts -> Forall (fun d => d <= B) (pending t ts).
Proof.
  intros H. rewrite Forall_forall in H |- *. intros d Hd.
  apply filter_In in Hd. now apply H.
Qed.

(** The clearances stay as they should when time moves on by [ms]. *)
Lemma clearance_elapse now ts (t : option Toast) ms :
  clearance_pending now ts t ->
  let now' := now + Z.max 0 ms in
  clearance_pending now' (pending now' ts)
    (match due now' ts with [] => t | _ => None end).
Proof.
  intros [F N]. cbn zeta. split.
  - rewrite Forall_forall in F |- *. intros d Hd.
    apply filter_In in Hd. destruct Hd as [Hd Hlate].
    specialize (F d Hd).
    destruct (d <=? now + Z.max 0 ms) eqn:E; [discriminate|].
    apply Z.leb_gt in E. lia.
  - destruct (due (now + Z.max 0 ms) ts) eqn:D; [|congruence].
    rewrite (none_due_all_pending _ _ D). exact N.
Qed.

Lemma clearance_added now ts (t t' : option Toast) :
  clearance_pending now ts t ->
  clearance_pending now (ts ++ [now + 5000]) t'.
Proof.
  intros [F N]. split.
  - apply Forall_app. split; [exact F|]. constructor; [lia | constructor].
  - intros _ E. now apply app_eq_nil in E.
Qed.

(** Nothing is pending and nothing on show once the time is past every
    deadline. *)
Lemma all_cleared now B ts (t : option Toast) :
  clearance_pending now ts t ->
  Forall (fun d => d <= B) ts ->
  B <= now ->
  t = None /\ ts = [].
Proof.
  intros [F N] Hb Hn.
  assert (E : ts = []).
  { destruct ts as [|d r]; [reflexivity|].
    inversion F; subst. inversion Hb; subst. lia. }
  split; [|exact E].
  destruct t; [|reflexivity]. exfalso. apply N; [discriminate | exact E].
Qed.

Section Facts.

Variable apiBase : string.
Variable clock : nat -> Z.

Lemma dashboard_clearance_step s e :
  clearance_pending (Dashboard.time s) (Dashboard.timers s) (Dashboard.toast s) ->
  let s' := Dashboard.handle apiBase clock s e in
  clearance_pending (Dashboard.time s') (Dashboard.timers s') (Dashboard.toast s').
Proof.
  intros H. cbn zeta.
  assert (C : (exists ms, e = Dashboard.Elapse ms)
              \/ forall ms, e <> Dashboard.Elapse ms).
  { destruct e; try (right; discriminate). left; eauto. }
  destruct C as [[ms ->] | Hne].
  - unfold Dashboard.handle, Dashboard.dispatch, exec, bind, gets,
      Dashboard.elapse. cbn.
    rewrite DashboardFacts.run_timers_exec. cbn.
    pose proof (clearance_elapse _ _ _ ms H) as G. cbn zeta in G.
    destruct (due (Dashboard.time s + Z.max 0 ms) (Dashboard.timers s));
      exact G.
  - destruct e; try (exfalso; eapply Hne; reflexivity).
    all: DashboardFacts.open_handlers.
    all: destruct (Dashboard.es s) as [l|] eqn:El; cbn; auto.
    all: crunch; auto.
    all: eapply clearance_added; exact H.
Qed.

Lemma overlay_clearance_step v e :
  clearance_pending (VideoOverlay.time v) (VideoOverlay.timers v)
    (VideoOverlay.toast v) ->
  let v' := VideoOverlay.handle apiBase v e in
  clearance_pending (VideoOverlay.time v') (VideoOverlay.timers v')
    (VideoOverlay.toast v').
Proof.
  intros H. cbn zeta.
  assert (C : (exists ms, e = VideoOverlay.Elapse ms)
              \/ forall ms, e <> VideoOverlay.Elapse ms).
  { destruct e; try (right; discriminate). left; eauto. }
  destruct C as [[ms ->] | Hne].
  - unfold VideoOverlay.handle, VideoOverlay.dispatch, exec, bind, gets,
      VideoOverlay.elapse. cbn.
    rewrite VideoOverlayFacts.overlay_run_timers_exec. cbn.
    pose proof (clearance_elapse _ _ _ ms H) as G. cbn zeta in G.
    destruct (due (VideoOverlay.time v + Z.max 0 ms) (VideoOverlay.timers v));
      exact G.
  - destruct e; try (exfalso; eapply Hne; reflexivity).
    all: VideoOverlayFacts.open_handlers.
    all: destruct (VideoOverlay.es v) eqn:El; cbn; auto.
    all: crunch; auto.
    all: eapply clearance_added; exact H.
Qed.

Lemma dashboard_quiet_bound B more : forall s,
  forallb (fun e => negb (Dashboard.toasting e)) more = true ->
  clearance_pending (Dashboard.time s) (Dashboard.timers s) (Dashboard.toast s) ->
  Forall (fun d => d <= B) (Dashboard.timers s) ->
  let s2 := Dashboard.run apiBase clock more s in
  clearance_pending (Dashboard.time s2) (Dashboard.timers s2) (Dashboard.toast s2)
  /\ Forall (fun d => d <= B) (Dashboard.timers s2).
Proof.
  induction more as [|e r IH]; intros s Hq K Hb; cbn zeta; [now split|].
  cbn in Hq. apply andb_prop in Hq. destruct Hq as [Hq Hr].
  apply negb_true_iff in Hq.
  change (Dashboard.run apiBase clock (e :: r) s)
    with (Dashboard.run apiBase clock r (Dashboard.handle apiBase clock s e)).
  apply IH; auto.
  - now apply dashboard_clearance_step.
  - assert (C : (exists ms, e = Dashboard.Elapse ms)
                \/ forall ms, e <> Dashboard.Elapse ms).
    { destruct e; try (right; discriminate). left; eauto. }
    destruct C as [[ms ->] | Hne].
    + unfold Dashboard.handle, Dashboard.dispatch, exec, bind, gets,
        Dashboard.elapse. cbn.
      rewrite DashboardFacts.run_timers_exec. cbn.
      pose proof (pending_bound B (Dashboard.time s + Z.max 0 ms) _ Hb) as G.
      destruct (due (Dashboard.time s + Z.max 0 ms) (Dashboard.timers s));
        exact G.
    + destruct (DashboardToast.quiet_step_frame apiBase clock s e Hq Hne)
        as (_ & -> & _). exact Hb.
Qed.

Lemma overlay_quiet_bound B more : forall v,
  forallb (fun e => negb (VideoOverlay.toasting e)) more = true ->
  clearance_pending (VideoOverlay.time v) (VideoOverlay.timers v)
    (VideoOverlay.toast v) ->
  Forall (fun d => d <= B) (VideoOverlay.timers v) ->
  let v2 := VideoOverlay.run apiBase more v in
  clearance_pending (VideoOverlay.time v2) (VideoOverlay.timers v2)
    (VideoOverlay.toast v2)
  /\ Forall (fun d => d <= B) (VideoOverlay.timers v2).
Proof.
  induction more as [|e r IH]; intros v Hq K Hb; cbn zeta; [now split|].
  cbn in Hq. apply andb_prop in Hq. destruct Hq as [Hq Hr].
  apply negb_true_iff in Hq.
  change (VideoOverlay.run apiBase (e :: r) v)
    with (VideoOverlay.run apiBase r (VideoOverlay.handle apiBase v e)).
  apply IH; auto.
  - now apply overlay_clearance_step.
  - assert (C : (exists ms, e = VideoOverlay.Elapse ms)
                \/ forall ms, e <> VideoOverlay.Elapse ms).
    { destruct e; try (right; discriminate). left; eauto. }
    destruct C as [[ms ->] | Hne].
    + unfold VideoOverlay.handle, VideoOverlay.dispatch, exec, bind, gets,
        VideoOverlay.elapse. cbn.
      rewrite VideoOverlayFacts.overlay_run_timers_exec. cbn.
      pose proof (pending_bound B (VideoOverlay.time v + Z.max 0 ms) _ Hb) as G.
      destruct (due (VideoOverlay.time v + Z.max 0 ms) (VideoOverlay.timers v));
        exact G.
    + destruct (VideoToast.overlay_quiet_step_frame apiBase v e Hq Hne)
        as (_ & -> & _). exact Hb.
Qed.

Lemma dashboard_clearance evs : forall s,
  clearance_pending (Dashboard.time s) (Dashboard.timers s) (Dashboard.toast s) ->
  let s1 := Dashboard.run apiBase clock evs s in
  clearance_pending (Dashboard.time s1) (Dashboard.timers s1) (Dashboard.toast s1).
Proof.
  induction evs as [|e r IH]; intros s K; cbn zeta; [exact K|].
  change (Dashboard.run apiBase clock (e :: r) s)
    with (Dashboard.run apiBase clock r (Dashboard.handle apiBase clock s e)).
  apply IH. now apply dashboard_clearance_step.
Qed.

Lemma overlay_clearance evs : forall v,
  clearance_pending (VideoOverlay.time v) (VideoOverlay.timers v)
    (VideoOverlay.toast v) ->
  let v1 := VideoOverlay.run apiBase evs v in
  clearance_pending (VideoOverlay.time v1) (VideoOverlay.timers v1)
    (VideoOverlay.toast v1).
Proof.
  induction evs as [|e r IH]; intros v K; cbn zeta; [exact K|].
  change (VideoOverlay.run apiBase (e :: r) v)
    with (VideoOverlay.run apiBase r (VideoOverlay.handle apiBase v e)).
  apply IH. now apply overlay_clearance_step.
Qed.

Lemma nothing_pending_at_start (now : Z) : clearance_pending now [] None.
Proof. split; [constructor | congruence]. Qed.

(** X9.  A toast does not stay: in any state the dashboard or the overlay
    reaches, if no cue with a truthy [username] and [rewardName] follows,
    then 5000 ms later, and at any later time, no toast is on show and no
    clearance is pending, whatever else happens in between. *)
Theorem toast_gone_after_5000
  (evs more : list Dashboard.Step) (vevs vmore : list VideoOverlay.Step) :
  let s := Dashboard.run apiBase clock evs Dashboard.initial in
  let s2 := Dashboard.run apiBase clock more s in
  let v := VideoOverlay.run apiBase vevs VideoOverlay.initial in
  let v2 := VideoOverlay.run apiBase vmore v in
  forallb (fun e => negb (Dashboard.toasting e)) more = true ->
  forallb (fun e => negb (VideoOverlay.toasting e)) vmore = true ->
  (Dashboard.time s + 5000 <=? Dashboard.time s2) = true ->
  (VideoOverlay.time v + 5000 <=? VideoOverlay.time v2) = true ->
  (Dashboard.toast s2 = None /\ Dashboard.timers s2 = [])
  /\ (VideoOverlay.toast v2 = None /\ VideoOverlay.timers v2 = []).
Proof.
  cbn zeta. intros Hq Hvq Ht Hvt.
  apply Z.leb_le in Ht. apply Z.leb_le in Hvt.
  pose proof (dashboard_clearance evs Dashboard.initial
                (nothing_pending_at_start _)) as K.
  pose proof (overlay_clearance vevs VideoOverlay.initial
                (nothing_pending_at_start _)) as Kv.
  cbn zeta in K, Kv.
  set (s := Dashboard.run apiBase clock evs Dashboard.initial) in *.
  set (v := VideoOverlay.run apiBase vevs VideoOverlay.initial) in *.
  clearbody s v.
  split.
  - destruct (dashboard_quiet_bound (Dashboard.time s + 5000) more s Hq K)
      as [K2 B2].
    { destruct K as [F _]. eapply Forall_impl; [|exact F]. cbn. intros; lia. }
    eapply all_cleared; eauto.
  - destruct (overlay_quiet_bound (VideoOverlay.time v + 5000) vmore v Hvq Kv)
      as [K2 B2].
    { destruct Kv as [F _]. eapply Forall_impl; [|exact F]. cbn. intros; lia. }
    eapply all_cleared; eauto.
Qed.

End Facts.

(** X9 at two cues a second apart and six seconds of other events. *)
Lemma toast_gone_witness :
  let cue user :=
    Dashboard.PlaySound
      (Some (cue_payload "/sounds/horn.mp3" "horn.mp3" user "confetti")) in
  let s := Dashboard.run api a_clock
             [Dashboard.Mount; cue "alice"; Dashboard.Elapse 1000; cue "bob"]
             Dashboard.initial in
  Dashboard.toast s <> None
  /\ Dashboard.toast
       (Dashboard.run api a_clock
          [Dashboard.Elapse 2000; Dashboard.Error; Dashboard.Elapse 3000] s)
     = None.
Proof.
  cbn zeta. split; [discriminate|].
  apply (toast_gone_after_5000 api a_clock
    [Dashboard.Mount;
     Dashboard.PlaySound
       (Some (cue_payload "/sounds/horn.mp3" "horn.mp3" "alice" "confetti"));
     Dashboard.Elapse 1000;
     Dashboard.PlaySound
       (Some (cue_payload "/sounds/horn.mp3" "horn.mp3" "bob" "confetti"))]
    [Dashboard.Elapse 2000; Dashboard.Error; Dashboard.Elapse 3000]
    [VideoOverlay.Mount] [VideoOverlay.Elapse 5000]
    eq_refl eq_refl eq_refl eq_refl).
Defined.

End ToastGoes.

(** ** What the overlay keeps at every step *)

Module OverlayKeeps.
Import VideoOverlay.

#[local] Arguments String.append : simpl never.
#[local] Arguments skipn : simpl never.
#[local] Arguments due : simpl never.
#[local] Arguments pending : simpl never.

Section Facts.

Variable apiBase : string.

Lemma silent_step s e :
  silent_and_blank s -> silent_and_blank (handle apiBase s e).
Proof.
  unfold silent_and_blank. intros H.
  destruct e; VideoOverlayFacts.open_handlers.
  all: destruct (es s) eqn:El; cbn; auto.
  all: rewrite ?VideoOverlayFacts.overlay_run_timers_exec.
  all: crunch; auto.
  all: intros el E; try (injection E as <-); cbn.
  all: try (repeat split; auto; try discriminate; fail).
  all: try (apply H in E; tauto).
  all: try congruence.
  all: destruct (H _ eq_refl) as (A & B & C); repeat split; auto.
Qed.

Lemma silent_run evs : forall s,
  silent_and_blank s -> silent_and_blank (run apiBase evs s).
Proof.
  induction evs as [|e r IH]; intros s H; cbn; auto.
  apply IH, silent_step, H.
Qed.

(** X10.  The overlay never sounds and never shows an old frame: after
    every run its [<video>] element is muted at volume 1, and whenever the
    overlay is hidden the element has no source. *)
Theorem overlay_silent_and_blank (evs : list Step) :
  silent_and_blank (run apiBase evs initial).
Proof.
  apply silent_run. unfold silent_and_blank. cbn. discriminate.
Qed.

End Facts.
End OverlayKeeps.

(** ** The two revisions of [App.tsx] *)

Module Revisions.

#[local] Arguments Z_toString : simpl never.
#[local] Arguments String.append : simpl never.
#[local] Arguments firstn : simpl never.
#[local] Arguments skipn : simpl never.



Section Facts.

Variable apiBase : string.
Variable clock : nat -> Z.



End Facts.
End Revisions.

(** ** Values that do not convert or do not render *)

Module OnScreen.

#[local] Arguments Z_toString : simpl never.
#[local] Arguments String.append : simpl never.
#[local] Arguments firstn : simpl never.
#[local] Arguments skipn : simpl never.
#[local] Arguments due : simpl never.
#[local] Arguments pending : simpl never.

Section Facts.

Variable apiBase : string.
Variable clock : nat -> Z.




End Facts.


(** A cue whose [username] is an object sets a toast that does not render:
    the handler runs to its end, the cue is recorded and played, and the
    render that follows throws. *)
Example object_name_does_not_render :
  let cue :=
    JObj [("src", JStr "/sounds/horn.mp3"); ("filename", JStr "horn.mp3");
          ("username", JObj []); ("rewardName", JStr "confetti")] in
  let s := Dashboard.run api a_clock
             [Dashboard.Mount; Dashboard.Open; Dashboard.PlaySound (Some cue)]
             Dashboard.initial in
  qualifying cue = true
  /\ map Dashboard.type (Dashboard.events s) = ["sound"; "connection"; "system"]
  /\ Dashboard.renders s = false.
Proof. vm_compute. repeat split. Qed.

(** A cue whose [filename] does not convert is rejected before it is
    recorded as a sound; one whose [src] does not convert is rejected
    after, on the dashboard that is not muted.  Neither is played. *)
Example unconvertible_fields_are_rejected :
  let s := Dashboard.run api a_clock [Dashboard.Mount; Dashboard.Open]
             Dashboard.initial in
  let no_filename :=
    JObj [("src", JStr "/sounds/horn.mp3"); ("filename", no_string)] in
  let no_src := JObj [("src", no_string); ("filename", JStr "horn.mp3")] in
  let a := Dashboard.handle api a_clock s (Dashboard.PlaySound (Some no_filename)) in
  let b := Dashboard.handle api a_clock s (Dashboard.PlaySound (Some no_src)) in
  map Dashboard.description (Dashboard.events a)
  = ["Failed to parse sound event"; "Connected to server";
     "Connecting to server..."]
  /\ (Dashboard.soundsPlayed a, Dashboard.calls a)
     = (0%nat, Dashboard.calls s)
  /\ map Dashboard.description (Dashboard.events b)
     = ["Failed to parse sound event"; "Playing: horn.mp3";
        "Connected to server"; "Connecting to server..."]
  /\ (Dashboard.soundsPlayed b, Dashboard.calls b)
     = (1%nat, Dashboard.calls s).
Proof. vm_compute. repeat split. Qed.

(** The overlay on a cue whose [src] does not convert: the reset, and no
    [play]. *)
Example unconvertible_src_is_not_played :
  let v := VideoOverlay.run api [VideoOverlay.Mount] VideoOverlay.initial in
  let cue := VideoOverlay.PlayVideo (Some (JObj [("src", no_string)])) in
  VideoOverlay.calls_of api v cue
  = [VideoOverlay.Pause; VideoOverlay.RemoveAttribute "src"; VideoOverlay.Load]
  /\ VideoOverlay.visible (VideoOverlay.handle api v cue) = false
  /\ VideoOverlay.plays (VideoOverlay.handle api v cue) = 0%nat.
Proof. vm_compute. repeat split. Qed.

End OnScreen.

(** ** The module level, the badge and the shape of the uptime *)

Module ShellFacts.

(** X13.  [apiBase] is never empty.  An override that is set and not empty
    is taken as it is; an empty one counts as none.  Without an override
    the loopback address is taken on the hosts "localhost" and
    "127.0.0.1" and on no other, where the remote address is taken. *)
Theorem apiBase_resolution (env : option string) (hostname : string) :
  Shell.apiBase env hostname <> ""
  /\ Shell.apiBase (Some "") hostname = Shell.apiBase None hostname
  /\ match env with
     | Some u => u = "" \/ Shell.apiBase env hostname = u
     | None => True
     end
  /\ (Shell.apiBase None hostname = "http://localhost:8787"
      <-> hostname = "localhost" \/ hostname = "127.0.0.1")
  /\ (Shell.apiBase None hostname = "https://hlp-api.onrender.com"
      <-> ~ (hostname = "localhost" \/ hostname = "127.0.0.1")).
Proof.
  unfold Shell.apiBase, Shell.or_else.
  destruct (String.eqb_spec hostname "localhost") as [L|L];
    destruct (String.eqb_spec hostname "127.0.0.1") as [O|O]; cbn.
  all: repeat split; try discriminate; auto; try tauto.
  all: try (destruct env as [u|]; [|exact I];
            destruct (String.eqb_spec u ""); auto).
  all: try (destruct env as [u|]; [|discriminate];
            destruct (String.eqb_spec u ""); [discriminate | congruence]).
  all: try (intros [?|?]; congruence).
  all: intros _ [?|?]; congruence.
Qed.

(** X14.  The badge tells the three states apart, by its colour and by its
    icon. *)
Theorem badge_tells_states_apart (a b : Dashboard.Status) :
  (Shell.getStatusColor a = Shell.getStatusColor b <-> a = b)
  /\ (Shell.getStatusIcon a = Shell.getStatusIcon b <-> a = b).
Proof.
  split; split; intros H; try (subst; reflexivity).
  all: destruct a, b; try reflexivity; discriminate H.
Qed.

(** X16.  Each of the paths "/video", "/tos" and "/privacy" has its own
    screen; every other path, the root among them, shows the dashboard. *)
Theorem routing (pathname : string) :
  (App pathname = VideoOverlayScreen <-> pathname = "/video")
  /\ (App pathname = TermsOfServiceScreen <-> pathname = "/tos")
  /\ (App pathname = PrivacyPolicyScreen <-> pathname = "/privacy")
  /\ (App pathname = DashboardScreen
      <-> pathname <> "/video" /\ pathname <> "/tos" /\ pathname <> "/privacy").
Proof.
  unfold App.
  destruct (String.eqb_spec pathname "/video") as [V|V];
    destruct (String.eqb_spec pathname "/tos") as [T|T];
    destruct (String.eqb_spec pathname "/privacy") as [P|P].
  all: repeat split; intros; subst; try discriminate; try tauto;
    try congruence.
Qed.

End ShellFacts.

Module UptimeShape.
Import Dashboard.

#[local] Arguments two_digits : simpl never.
#[local] Arguments Z.mul : simpl never.
#[local] Arguments Z.div : simpl never.
#[local] Arguments Z.rem : simpl never.

Lemma two_chars n :
  0 <= n < 100 -> exists a b, zero_padded n = String a (String b "").
Proof.
  intros H.
  assert (E : exists k : nat, (k < 100)%nat /\ n = Z.of_nat k).
  { exists (Z.to_nat n). lia. }
  destruct E as (k & Hk & ->). clear H.
  do 100 (destruct k as [|k]; [do 2 eexists; reflexivity|]). lia.
Qed.

Lemma hh_mm_ss_shape d :
  0 <= d < 360000000 ->
  String.length (hh_mm_ss d) = 8%nat
  /\ String.get 2 (hh_mm_ss d) = Some ":"%char
  /\ String.get 5 (hh_mm_ss d) = Some ":"%char.
Proof.
  intros H. unfold hh_mm_ss. cbv zeta.
  destruct (two_chars (d / 1000 / 3600)) as (a & b & ->);
    [Z.div_mod_to_equations; lia|].
  destruct (two_chars (d / 1000 / 60 mod 60)) as (a' & b' & ->);
    [Z.div_mod_to_equations; lia|].
  destruct (two_chars ((d / 1000) mod 60)) as (a'' & b'' & ->);
    [Z.div_mod_to_equations; lia|].
  cbn. repeat split.
Qed.

Section Facts.

Variable apiBase : string.
Variable clock : nat -> Z.

(** X15.  The uptime always has the shape of a clock face below a hundred
    hours: on a tick at most 359999999 ms of wall clock after
    [connectedAt], or with no [connectedAt], the string shown has eight
    characters with colons third and sixth. *)
Theorem uptime_has_eight_characters (evs : list Step) :
  let s := run apiBase clock (Mount :: evs) initial in
  let now := clock (reads s) in
  let u := uptime (handle apiBase clock s IntervalTick) in
  (forall c, connectedAt s = Some c -> c <= now < c + 360000000) ->
  String.length u = 8%nat
  /\ String.get 2 u = Some ":"%char
  /\ String.get 5 u = Some ":"%char.
Proof.
  cbn zeta. intros H.
  destruct (DashboardFacts.mounted apiBase clock evs) as [l El].
  set (s := run apiBase clock (Mount :: evs) initial) in *. clearbody s.
  unfold handle, dispatch, exec, bind, gets. cbn. rewrite El.
  unfold uptime_tick, bind.
  destruct (connectedAt s) as [c|] eqn:E.
  - destruct (H c eq_refl) as [H1 H2].
    pose proof (UptimeFacts.formatUptime_connected clock s c E H1) as F.
    unfold completion in F.
    destruct (formatUptime clock s) as [r s1]. cbn in F. subst r.
    cbn. apply hh_mm_ss_shape. lia.
  - unfold formatUptime, bind, gets. cbn. rewrite E. cbn. repeat split.
Qed.

End Facts.

(** X15 at a tick 3703701 ms after the connection opened. *)
Lemma uptime_shape_witness :
  let clock n := 1700000000000 + 1234567 * Z.of_nat n in
  String.length (uptime (run api clock [Mount; Open; IntervalTick] initial))
  = 8%nat.
Proof.
  cbn zeta.
  apply (uptime_has_eight_characters api
           (fun n => 1700000000000 + 1234567 * Z.of_nat n) [Open]).
  cbn zeta. intros c E. vm_compute in E. injection E as <-.
  vm_compute. split; [discriminate | reflexivity].
Defined.

End UptimeShape.
